(** * fdfault: the output list (src/outputlist.cpp) and the friction solve

    A shallow embedding of [outputlist::outputlist], [~outputlist],
    [write_list] and [close_list], over a model of the [std::ifstream]
    operations the constructor uses and of the heap that holds the
    linked [outputunit] nodes; and a model of [friction::solve_fs], of
    which the sources hold the declaration only. *)

From Stdlib Require Import ZArith String Ascii List Bool Lia QArith.
From stdpp Require Import base option list gmap strings.

Close Scope Q_scope.
Open Scope Z_scope.

(** ** Characters *)

Definition nl : ascii := ascii_of_nat 10.
Definition endl : string := String nl "".

(** [std::isspace] in the "C" locale: space and the controls 9 to 13. *)
Definition isspace (c : ascii) : bool :=
  let n := nat_of_ascii c in
  (n =? 32)%nat || ((9 <=? n)%nat && (n <=? 13)%nat).

Definition isdigit (c : ascii) : bool :=
  let n := nat_of_ascii c in (48 <=? n)%nat && (n <=? 57)%nat.

Definition digit_val (c : ascii) : Z := Z.of_nat (nat_of_ascii c) - 48.

Definition is_empty (s : string) : bool :=
  match s with EmptyString => true | String _ _ => false end.

(** ** The input stream

    [buf] is what is left to read; [eofbit] and [failbit] are the two
    state flags the constructor can observe ([badbit] is never raised by
    reading from an in-memory sequence of characters). *)

Record istream := mk_istream { buf : string; eofbit : bool; failbit : bool }.

Definition good (s : istream) : bool := negb (eofbit s || failbit s).
Definition eof (s : istream) : bool := eofbit s.
Definition fail (s : istream) : bool := failbit s.
Definition setfail (s : istream) : istream := mk_istream (buf s) (eofbit s) true.
Definition open (text : string) : istream := mk_istream text false false.

(** Characters up to the first newline, and what follows that newline
    ([None] when the text holds no newline). *)
Fixpoint read_line (s : string) : string * option string :=
  match s with
  | EmptyString => (EmptyString, None)
  | String c r =>
      if Ascii.eqb c nl then (EmptyString, Some r)
      else let '(l, k) := read_line r in (String c l, k)
  end.

(** [std::getline(is, line)]: when the stream is not good the sentry
    fails, [failbit] is raised and [line] is left as it was. Otherwise
    [line] is erased and filled up to the delimiter, which is extracted
    and dropped; hitting the end raises [eofbit], and [failbit] too when
    nothing at all was extracted. *)
Definition getline (s : istream) (line : string) : istream * string :=
  if good s then
    match read_line (buf s) with
    | (l, Some r) => (mk_istream r false false, l)
    | (l, None) => (mk_istream EmptyString true (is_empty l), l)
    end
  else (setfail s, line).

Fixpoint skipws (s : string) : string :=
  match s with
  | EmptyString => EmptyString
  | String c r => if isspace c then skipws r else s
  end.

(** The sentry of a formatted extraction ([skipws] is set): fails on a
    stream that is not good; otherwise skips leading white space, and
    fails with [eofbit] and [failbit] when that reaches the end. *)
Definition sentry (s : istream) : istream * bool :=
  if good s then
    match skipws (buf s) with
    | EmptyString => (mk_istream EmptyString true true, false)
    | b => (mk_istream b false false, true)
    end
  else (setfail s, false).

Fixpoint read_word (s : string) : string * string :=
  match s with
  | EmptyString => (EmptyString, EmptyString)
  | String c r =>
      if isspace c then (EmptyString, s)
      else let '(w, k) := read_word r in (String c w, k)
  end.

(** [is >> str] for a [std::string]. *)
Definition extract_string (s : istream) (old : string) : istream * string :=
  let '(s1, ok) := sentry s in
  if ok then
    let '(w, r) := read_word (buf s1) in
    (mk_istream r (is_empty r) (is_empty w), w)
  else (s1, old).

(** Decimal digits at the front of [s], accumulated on [acc]; the flag
    says whether at least one digit was seen. *)
Fixpoint read_digits (s : string) (acc : Z) (seen : bool) : Z * bool * string :=
  match s with
  | EmptyString => (acc, seen, EmptyString)
  | String c r =>
      if isdigit c then read_digits r (10 * acc + digit_val c) true
      else (acc, seen, s)
  end.

Definition read_sign (s : string) : bool * string :=
  match s with
  | String c r =>
      if Ascii.eqb c "-" then (true, r)
      else if Ascii.eqb c "+" then (false, r)
      else (false, s)
  | EmptyString => (false, s)
  end.

Definition INT_MIN : Z := - 2 ^ 31.
Definition INT_MAX : Z := 2 ^ 31 - 1.

(** [is >> n] for an [int] (decimal base, no digit grouping): an
    optional sign, then digits. Without a digit the value is 0 and
    [failbit] is raised; a value out of range is clamped and [failbit]
    is raised; reaching the end raises [eofbit]. When the sentry fails
    the variable keeps its old value. *)
Definition extract_int (s : istream) (old : Z) : istream * Z :=
  let '(s1, ok) := sentry s in
  if ok then
    let '(neg, b) := read_sign (buf s1) in
    let '(n, seen, r) := read_digits b 0 false in
    let v := if neg then - n else n in
    if negb seen then (mk_istream r (is_empty r) true, 0)
    else if v <? INT_MIN then (mk_istream r (is_empty r) true, INT_MIN)
    else if INT_MAX <? v then (mk_istream r (is_empty r) true, INT_MAX)
    else (mk_istream r (is_empty r) false, v)
  else (s1, old).

(** ** Output units and the heap

    A pointer is an address, 0 being the null pointer; the heap maps the
    addresses of live nodes to their contents. *)

Definition null : N := 0%N.

(** The int locals [tm, tp, ts, xm[3], xp[3], xs[3]] of the constructor,
    which are also the window arguments of a unit. *)
Record window := mk_window
  { tm : Z; tp : Z; ts : Z; xm : list Z; xp : list Z; xs : list Z }.

(** Modelled from the spec: class [outputunit] (outputunit.hpp and
    outputunit.cpp are not among the sources). A unit holds the
    field selection and the time and space window it was constructed
    with, the link to the next unit of the singly linked list, and a
    mutable open-file state. *)
Record outputunit := mk_outputunit
  { u_probname : string; u_datadir : string; u_nt : Z;
    u_window : window; u_field : string; u_name : string;
    u_next : N; u_open : bool }.

(** Modelled from the spec: the constructor [outputunit::outputunit]
    stores its arguments; a new unit has no successor and no open file
    (the file is opened on the first write). *)
Definition new_outputunit (probname datadir : string) (nt : Z)
    (tm tp ts : Z) (xm xp xs : list Z) (field name : string) : outputunit :=
  mk_outputunit probname datadir nt (mk_window tm tp ts xm xp xs) field name
                null false.

Definition get_next_unit (u : outputunit) : N := u_next u.

Definition set_next_unit (u : outputunit) (p : N) : outputunit :=
  mk_outputunit (u_probname u) (u_datadir u) (u_nt u) (u_window u)
                (u_field u) (u_name u) p (u_open u).

(** Modelled from the spec: [outputunit::close_file] closes the unit's
    output file (close-on-shutdown). *)
Definition close_file (u : outputunit) : outputunit :=
  mk_outputunit (u_probname u) (u_datadir u) (u_nt u) (u_window u)
                (u_field u) (u_name u) (u_next u) false.

(** What was done to the nodes, oldest first: the member functions
    called on a node, its allocation and its deallocation. *)
Inductive event : Type :=
  | New (p : N)
  | SetNext (p q : N)
  | GetNext (p : N)
  | WriteUnit (p : N)
  | CloseFile (p : N)
  | ReleaseFile (p : N)
  | Delete (p : N).

#[global] Instance event_eq_dec : EqDecision event.
Proof. solve_decision. Defined.

(** The node an event is about. *)
Definition target (e : event) : N :=
  match e with
  | New p | SetNext p _ | GetNext p | WriteUnit p | CloseFile p
  | ReleaseFile p | Delete p => p
  end.

(** [cells] holds the live nodes, [brk] is the next fresh address and
    [log] the history of events. *)
Record memory := mk_memory
  { cells : gmap N outputunit; brk : N; log : list event }.

Definition empty_memory : memory := mk_memory ∅ 1%N [].

Definition record (m : memory) (es : list event) : memory :=
  mk_memory (cells m) (brk m) (log m ++ es).

(** [new outputunit(...)]: the node is placed at a fresh address. *)
Definition new (m : memory) (u : outputunit) : memory * N :=
  (mk_memory (<[brk m := u]> (cells m)) (N.succ (brk m)) (log m ++ [New (brk m)]),
   brk m).

Definition store (m : memory) (p : N) (u : outputunit) : memory :=
  mk_memory (<[p := u]> (cells m)) (brk m) (log m).

Definition free (m : memory) (p : N) : memory :=
  mk_memory (delete p (cells m)) (brk m) (log m).

(** ** Runs

    How a call ends: it returns; it has written [cerr] to standard error
    and calls [MPI_Abort(comm, errorcode)], which ends every process of
    the communicator; it dereferences a pointer that is not a live
    node; or the model's fuel ran out. *)

Inductive communicator : Type := MPI_COMM_WORLD.

Inductive run (A : Type) : Type :=
  | Returns (a : A)
  | MPI_Abort (cerr : string) (comm : communicator) (errorcode : Z)
  | Undefined
  | OutOfFuel.
Arguments Returns {A} a.
Arguments MPI_Abort {A} cerr comm errorcode.
Arguments Undefined {A}.
Arguments OutOfFuel {A}.

#[global] Instance run_ret : MRet run := @Returns.

#[global] Instance run_bind : MBind run := fun A B k r =>
  match r with
  | Returns a => k a
  | MPI_Abort e w c => MPI_Abort e w c
  | Undefined => Undefined
  | OutOfFuel => OutOfFuel
  end.

(** [p->...]: the node a pointer designates. *)
Definition deref (m : memory) (p : N) : run outputunit :=
  match cells m !! p with
  | Some u => Returns u
  | None => Undefined
  end.

(** [p->set_next_unit(q)] and [p->get_next_unit()] on the heap. *)
Definition call_set_next_unit (m : memory) (p q : N) : run memory :=
  u ← deref m p;
  mret (record (store m p (set_next_unit u q)) [SetNext p q]).

Definition call_get_next_unit (m : memory) (p : N) : run (memory * N) :=
  u ← deref m p;
  mret (record m [GetNext p], get_next_unit u).

(** ** The constructor *)

Definition marker : string := "[fdfault.outputlist]".

Definition set_tm (w : window) (a : Z) := mk_window a (tp w) (ts w) (xm w) (xp w) (xs w).
Definition set_tp (w : window) (a : Z) := mk_window (tm w) a (ts w) (xm w) (xp w) (xs w).
Definition set_ts (w : window) (a : Z) := mk_window (tm w) (tp w) a (xm w) (xp w) (xs w).
Definition set_xm (w : window) (i : nat) (a : Z) :=
  mk_window (tm w) (tp w) (ts w) (<[i := a]> (xm w)) (xp w) (xs w).
Definition set_xp (w : window) (i : nat) (a : Z) :=
  mk_window (tm w) (tp w) (ts w) (xm w) (<[i := a]> (xp w)) (xs w).
Definition set_xs (w : window) (i : nat) (a : Z) :=
  mk_window (tm w) (tp w) (ts w) (xm w) (xp w) (<[i := a]> (xs w)).

(** The int locals are declared without an initialiser: what they hold
    before the first successful read is whatever [garbage] supplies. *)
Definition uninitialised (garbage : nat -> Z) : window :=
  mk_window (garbage 0%nat) (garbage 1%nat) (garbage 2%nat)
            [garbage 3%nat; garbage 4%nat; garbage 5%nat]
            [garbage 6%nat; garbage 7%nat; garbage 8%nat]
            [garbage 9%nat; garbage 10%nat; garbage 11%nat].

(** The arrays [xm], [xp] and [xs] have three entries. *)
Definition win_ok (w : window) : Prop :=
  length (xm w) = 3%nat /\ length (xp w) = 3%nat /\ length (xs w) = 3%nat.

(** Body of [for (int i=0; i<3; i++)]. *)
Definition read_xyz (st : istream * window) (i : nat) : istream * window :=
  let '(s, w) := st in
  let '(s, a) := extract_int s (xm w !!! i) in
  let w := set_xm w i a in
  let '(s, a) := extract_int s (xp w !!! i) in
  let w := set_xp w i a in
  let '(s, a) := extract_int s (xs w !!! i) in
  let w := set_xs w i a in
  (s, w).

(** The thirteen extractions that follow the name line. *)
Definition read_item (s : istream) (field : string) (w : window)
    : istream * string * window :=
  let '(s, field) := extract_string s field in
  let '(s, a) := extract_int s (tm w) in
  let w := set_tm w a in
  let '(s, a) := extract_int s (tp w) in
  let w := set_tp w a in
  let '(s, a) := extract_int s (ts w) in
  let w := set_ts w a in
  let '(s, w) := fold_left read_xyz [0; 1; 2]%nat (s, w) in
  (s, field, w).

(** [while (getline(paramfile,line)) if (line == marker) break;] *)
Fixpoint scan (fuel : nat) (s : istream) (line : string) : run (istream * string) :=
  match fuel with
  | O => OutOfFuel
  | S k =>
      let '(s, line) := getline s line in
      if fail s then Returns (s, line)
      else if String.eqb line marker then Returns (s, line)
      else scan k s line
  end.

Section Constructor.

Variables (probname datadir : string) (nt : Z).

(** The loop that reads the units, with the locals it carries from one
    iteration to the next. *)
Fixpoint read_units (fuel : nat) (s : istream) (line name field : string)
    (w : window) (m : memory) (rootunit cunit nunit : N) : run (memory * N) :=
  match fuel with
  | O => OutOfFuel
  | S k =>
      let '(s, line) := getline s line in
      if fail s then Returns (m, rootunit)
      else if is_empty line then Returns (m, rootunit)
      else
        let name := line in
        let '(s, field, w) := read_item s field w in
        let '(s, line) := getline s line in
        let '(m, cunit) :=
          new m (new_outputunit probname datadir nt (tm w) (tp w) (ts w)
                                (xm w) (xp w) (xs w) field name) in
        if (rootunit =? null)%N then
          read_units k s line name field w m cunit cunit cunit
        else
          m ← call_set_next_unit m nunit cunit;
          '(m, nunit) ← call_get_next_unit m nunit;
          read_units k s line name field w m rootunit cunit nunit
  end.

(** [outputlist::outputlist]. [file] is what opening [filename] gives:
    the text of the file, or [None] when it cannot be opened. The
    [domain] argument is only handed on to the units. [nunit] is
    declared without an initialiser and is assigned before its first
    use; it stands as null until then. The fuel outlasts the text: every
    turn of either loop reads at least one character. *)
Definition outputlist (garbage : nat -> Z) (file : option string)
    : run (memory * N) :=
  let rootunit := null in
  let cunit := rootunit in
  let nunit := null in
  match file with
  | Some text =>
      let fuel := S (String.length text) in
      '(s, line) ← scan fuel (open text) EmptyString ;
      if eof s then
        MPI_Abort ("Error reading outputlist from input file" +:+ endl)
                  MPI_COMM_WORLD (-1)
      else
        read_units fuel s line EmptyString EmptyString
                   (uninitialised garbage) empty_memory rootunit cunit nunit
  | None =>
      MPI_Abort ("Error opening input file in outputlist.cpp" +:+ endl)
                MPI_COMM_WORLD (-1)
  end.

End Constructor.

(** ** Traversals and the destructor *)

Section Traversal.

(** [double], [domain] and [outputunit::write_unit] are not among the
    sources: they are taken as parameters. *)
Variables (real domain : Type).
Variable write_unit : Z -> real -> domain -> outputunit -> outputunit.

Definition call_write_unit (m : memory) (p : N) (tstep : Z) (dt : real)
    (d : domain) : run memory :=
  u ← deref m p;
  mret (record (store m p (write_unit tstep dt d u)) [WriteUnit p]).

Fixpoint write_loop (fuel : nat) (tstep : Z) (dt : real) (d : domain)
    (m : memory) (cunit : N) : run memory :=
  match fuel with
  | O => OutOfFuel
  | S k =>
      if (cunit =? null)%N then mret m
      else
        m ← call_write_unit m cunit tstep dt d;
        '(m, cunit) ← call_get_next_unit m cunit;
        write_loop k tstep dt d m cunit
  end.

(** [outputlist::write_list]. A walk that outlasts the number of live
    nodes has entered a cycle and never ends. *)
Definition write_list (m : memory) (rootunit : N) (tstep : Z) (dt : real)
    (d : domain) : run memory :=
  let cunit := rootunit in
  write_loop (S (size (cells m))) tstep dt d m cunit.

End Traversal.

Definition call_close_file (m : memory) (p : N) : run memory :=
  u ← deref m p;
  mret (record (store m p (close_file u)) [CloseFile p]).

Fixpoint close_loop (fuel : nat) (m : memory) (cunit : N) : run memory :=
  match fuel with
  | O => OutOfFuel
  | S k =>
      if (cunit =? null)%N then mret m
      else
        m ← call_close_file m cunit;
        '(m, cunit) ← call_get_next_unit m cunit;
        close_loop k m cunit
  end.

(** [outputlist::close_list]. *)
Definition close_list (m : memory) (rootunit : N) : run memory :=
  let cunit := rootunit in
  close_loop (S (size (cells m))) m cunit.

(** Modelled from the spec: [outputunit::~outputunit] is not among the
    sources; a unit that is destroyed releases the output file it still
    has open. [delete p] runs it and then gives the node back. *)
Definition delete_unit (m : memory) (p : N) : run memory :=
  u ← deref m p;
  mret (record (free m p)
          ((if u_open u then [ReleaseFile p] else []) ++ [Delete p])).

Fixpoint destroy_loop (fuel : nat) (m : memory) (ounit cunit : N) : run memory :=
  match fuel with
  | O => OutOfFuel
  | S k =>
      if (ounit =? null)%N then mret m
      else
        '(m, cunit) ← call_get_next_unit m cunit;
        m ← delete_unit m ounit;
        let ounit := cunit in
        destroy_loop k m ounit cunit
  end.

(** [outputlist::~outputlist]. Every turn of the loop deletes a live
    node, so the number of live nodes bounds the number of turns. *)
Definition destroy (m : memory) (rootunit : N) : run memory :=
  let ounit := rootunit in
  let cunit := rootunit in
  destroy_loop (S (size (cells m))) m ounit cunit.

(** ** Input files that follow the format

    The text of a well-formed file is described by its parts, so that
    being well formed can be computed. *)

Fixpoint string_forall (f : ascii -> bool) (s : string) : bool :=
  match s with
  | EmptyString => true
  | String c r => f c && string_forall f r
  end.

Definition not_nl (c : ascii) : bool := negb (Ascii.eqb c nl).
Definition not_space (c : ascii) : bool := negb (isspace c).
Definition blank (c : ascii) : bool := isspace c && not_nl c.

(** The lines of a text: what a newline ends, and what is left after
    the last newline. *)
Fixpoint lines (s : string) : list string :=
  match s with
  | EmptyString => [EmptyString]
  | String c r =>
      if Ascii.eqb c nl then EmptyString :: lines r
      else match lines r with
           | [] => [String c EmptyString]
           | l :: ls => String c l :: ls
           end
  end.

Definition starts_space (s : string) : bool :=
  match s with
  | EmptyString => false
  | String c _ => isspace c
  end.

(** Value of a string of decimal digits, by position. *)
Fixpoint dec_value (ds : string) : Z :=
  match ds with
  | EmptyString => 0
  | String c r => digit_val c * 10 ^ Z.of_nat (String.length r) + dec_value r
  end.

(** An integer literal: an optional sign and at least one digit. *)
Definition lit_digits (lit : string) : string := snd (read_sign lit).

Definition lit_value (lit : string) : Z :=
  if fst (read_sign lit) then - dec_value (lit_digits lit)
  else dec_value (lit_digits lit).

Definition wf_lit (lit : string) : bool :=
  negb (is_empty (lit_digits lit)) && string_forall isdigit (lit_digits lit)
  && (INT_MIN <=? lit_value lit) && (lit_value lit <=? INT_MAX).

(** A token with the white space in front of it. *)
Definition spaced : Type := string * string.

Definition wf_gap (t : spaced) : bool :=
  negb (is_empty (fst t)) && string_forall isspace (fst t).

(** One declaration: the name line, the field word, the twelve integer
    literals and what is left of the last line. *)
Record item := mk_item
  { i_name : string; i_field : spaced; i_ints : list spaced; i_tail : string }.

Definition wf_item (it : item) : bool :=
  negb (is_empty (i_name it)) && string_forall not_nl (i_name it)
  && string_forall isspace (fst (i_field it))
  && negb (is_empty (snd (i_field it)))
  && string_forall not_space (snd (i_field it))
  && (length (i_ints it) =? 12)%nat
  && forallb (fun t => wf_gap t && wf_lit (snd t)) (i_ints it)
  && string_forall blank (i_tail it).

Definition render_spaced (ts : list spaced) (rest : string) : string :=
  fold_right (fun t r => fst t +:+ snd t +:+ r) rest ts.

Definition render_item (it : item) (rest : string) : string :=
  i_name it +:+ endl
  +:+ render_spaced (i_field it :: i_ints it) (i_tail it +:+ endl +:+ rest).

Definition render_items (its : list item) (rest : string) : string :=
  fold_right render_item rest its.

Definition render_lines (ls : list string) (rest : string) : string :=
  fold_right (fun l r => l +:+ endl +:+ r) rest ls.

(** A file: lines before the marker, the marker line, the declarations
    and the rest, which is empty or starts with a blank line. *)
Definition render_file (pre : list string) (its : list item) (post : string) : string :=
  render_lines pre (marker +:+ endl +:+ render_items its post).

Definition wf_pre (pre : list string) : bool :=
  forallb (fun l => string_forall not_nl l && negb (String.eqb l marker)) pre.

Definition wf_post (post : string) : bool :=
  match post with
  | EmptyString => true
  | String c _ => Ascii.eqb c nl
  end.

Definition wf_file (pre : list string) (its : list item) (post : string) : bool :=
  wf_pre pre && forallb wf_item its && wf_post post.

(** The window a declaration's twelve integers denote. *)
Definition window_of (zs : list Z) : window :=
  mk_window (zs !!! 0%nat) (zs !!! 1%nat) (zs !!! 2%nat)
            [zs !!! 3%nat; zs !!! 6%nat; zs !!! 9%nat]
            [zs !!! 4%nat; zs !!! 7%nat; zs !!! 10%nat]
            [zs !!! 5%nat; zs !!! 8%nat; zs !!! 11%nat].

Definition item_window (it : item) : window :=
  window_of (map (fun t => lit_value (snd t)) (i_ints it)).

(** The unit the constructor makes of a declaration. *)
Definition item_unit (probname datadir : string) (nt : Z) (it : item) : outputunit :=
  let w := item_window it in
  new_outputunit probname datadir nt (tm w) (tp w) (ts w) (xm w) (xp w) (xs w)
                 (snd (i_field it)) (i_name it).

(** ** Lists in the heap *)

(** [chain c p ps]: following the links from [p] visits the live nodes
    [ps], in that order, and ends at the null pointer. *)
Fixpoint chain (c : gmap N outputunit) (p : N) (ps : list N) : Prop :=
  match ps with
  | [] => p = null
  | q :: r =>
      p = q /\ q <> null /\
      exists u, c !! q = Some u /\ chain c (get_next_unit u) r
  end.

(** Addresses handed out, in order, for [n] allocations from the empty
    memory. *)
Definition addresses (n : nat) : list N := N.of_nat <$> seq 1 n.

(** The node found at address [p] when [us] were appended one after the
    other from the empty memory: unit number [p], linked to the next
    address, the last one to null. *)
Definition layout (us : list outputunit) (p : N) : option outputunit :=
  match N.to_nat p with
  | O => None
  | S i =>
      (fun u => set_next_unit u
                  (if decide (S i = length us) then null else N.succ p))
        <$> us !! i
  end.

(** What [n] appends do to the nodes: a node is allocated, and from the
    second on, the old tail is linked to it and stepped over. *)
Fixpoint construction_log (n : nat) : list event :=
  match n with
  | O => []
  | S k =>
      construction_log k ++
      match k with
      | O => [New 1%N]
      | S _ => [New (N.of_nat (S k)); SetNext (N.of_nat k) (N.of_nat (S k));
                GetNext (N.of_nat k)]
      end
  end.

(** The root pointer of a list of [n] appended units. *)
Definition root_of (n : nat) : N :=
  match n with O => null | S _ => 1%N end.

(** The memory holds exactly the units [us], appended in that order
    from the empty memory. *)
Definition holds (m : memory) (us : list outputunit) : Prop :=
  (forall p, cells m !! p = layout us p) /\
  brk m = N.of_nat (S (length us)) /\
  log m = construction_log (length us).

(** Same unit but for the link. *)
Definition same_unit (u v : outputunit) : Prop :=
  set_next_unit u null = set_next_unit v null.

(** The list at [root] is made of the units [us], in that order, at the
    addresses of their allocation. *)
Definition lists (m : memory) (root : N) (us : list outputunit) : Prop :=
  chain (cells m) root (addresses (length us)) /\
  forall i u, us !! i = Some u ->
    exists v, cells m !! N.of_nat (S i) = Some v /\ same_unit v u.

(** No event is about a node that an earlier event deleted. *)
Fixpoint no_use_after_delete (tr : list event) : Prop :=
  match tr with
  | [] => True
  | e :: r =>
      (forall p, e = Delete p -> Forall (fun e' => target e' <> p) r) /\
      no_use_after_delete r
  end.

Definition released_before_delete (tr : list event) (p : N) : Prop :=
  exists t1 t2 t3, tr = t1 ++ ReleaseFile p :: t2 ++ Delete p :: t3.

(** The nodes a trace writes, closes, steps over and deletes. *)
Definition written (tr : list event) : list N :=
  omap (fun e => match e with WriteUnit p => Some p | _ => None end) tr.
Definition closed (tr : list event) : list N :=
  omap (fun e => match e with CloseFile p => Some p | _ => None end) tr.
Definition stepped (tr : list event) : list N :=
  omap (fun e => match e with GetNext p => Some p | _ => None end) tr.
Definition deleted (tr : list event) : list N :=
  omap (fun e => match e with Delete p => Some p | _ => None end) tr.

(** Events of destroying the nodes [ps] of [c]. *)
Definition destroy_events (c : gmap N outputunit) (ps : list N) : list event :=
  flat_map (fun p =>
    GetNext p ::
    match c !! p with
    | Some u => if u_open u then [ReleaseFile p] else []
    | None => []
    end ++ [Delete p]) ps.

(** The common shape of [write_list] and [close_list]: call a member
    function on the node, then step to the next one. *)
Fixpoint visit_loop (f : outputunit -> outputunit) (ev : N -> event)
    (fuel : nat) (m : memory) (cunit : N) : run memory :=
  match fuel with
  | O => OutOfFuel
  | S k =>
      if (cunit =? null)%N then mret m
      else
        m ← (u ← deref m cunit;
             mret (record (store m cunit (f u)) [ev cunit]));
        '(m, cunit) ← call_get_next_unit m cunit;
        visit_loop f ev k m cunit
  end.

Definition visit_events (ev : N -> event) (ps : list N) : list event :=
  flat_map (fun p => [ev p; GetNext p]) ps.

(** The memory after the member function [f] was called once on each of
    the nodes [ps]. *)
Definition visit_result (f : outputunit -> outputunit) (ev : N -> event)
    (m : memory) (ps : list N) : memory :=
  mk_memory (foldl (fun c p => alter f p c) (cells m) ps) (brk m)
            (log m ++ visit_events ev ps).

(** The memory after the nodes [ps] were deleted. *)
Definition destroy_result (m : memory) (ps : list N) : memory :=
  mk_memory (foldl (fun c p => delete p c) (cells m) ps) (brk m)
            (log m ++ destroy_events (cells m) ps).

(** ** The friction solve *)

Module friction.

Local Open Scope Q_scope.

(** Modelled from the spec: [boundchar], the slip velocity [v] and the
    shear traction [s] that [solve_fs] returns (interface.hpp is not
    among the sources). Real numbers are taken as rationals. *)
Record boundchar := mk_boundchar { v : Q; s : Q }.

(** Modelled from the spec: the strength the solve uses. The friction
    law gives a nominal strength for the normal stress [snc] at grid
    point [i], [j] and time [t]; zero or negative effective normal
    stress forces the strength to zero. *)
Definition strength (law : Q -> Z -> Z -> Q -> Q) (snc : Q) (i j : Z) (t : Q) : Q :=
  if Qle_bool snc 0 then 0 else law snc i j t.

(** Modelled from the spec: [friction::solve_fs], of which the sources
    hold the declaration only. [phi] is the elastic traction magnitude
    and [eta] the impedance factor of the radiation damping line
    [s = phi - eta * v]. Loss of contact gives stress-free slip without
    a root-find; traction below strength gives a locked point without a
    root-find; otherwise [root_find phi eta str] is the slip velocity
    where the line meets the strength. *)
Definition solve_fs (law : Q -> Z -> Z -> Q -> Q) (root_find : Q -> Q -> Q -> Q)
    (phi eta snc : Q) (i j : Z) (t : Q) : boundchar :=
  if Qle_bool snc 0 then mk_boundchar (phi / eta) 0
  else
    let str := strength law snc i j t in
    if negb (Qle_bool str phi) then mk_boundchar 0 phi
    else
      mk_boundchar (root_find phi eta str) str.

(** The closed form for a strength that does not depend on the rate. *)
Definition closed_form (phi eta str : Q) : Q := (phi - str) / eta.

(** A linear strength law: friction coefficient times effective normal
    stress. *)
Definition coulomb (mu : Q) : Q -> Z -> Z -> Q -> Q :=
  fun snc _ _ _ => mu * snc.

End friction.

(** ** Sample inputs *)

Definition demo_ints : list spaced :=
  [(" ", "0"); (" ", "10"); (" ", "2"); (" ", "0"); (" ", "5"); (" ", "1");
   (" ", "3"); (" ", "7"); (" ", "2"); (" ", "-1"); (" ", "+4"); (" ", "1")].

Definition demo_item : item := mk_item "vxbody" ("", "vx") demo_ints "".

Definition demo_item2 : item :=
  mk_item "fault slip" (" ", "U")
    [(" ", "5"); (" ", "95"); (" ", "5"); (" ", "1"); (" ", "1"); (" ", "1");
     (" ", "0"); (" ", "40"); (" ", "4"); (" ", "0"); (" ", "20"); (" ", "2")]
    " ".

Definition demo_pre : list string := ["[fdfault.problem]"; "name = demo"; ""].

Definition no_garbage : nat -> Z := fun _ => 0.

(** A unit, and a memory whose list has two nodes, the first with an
    open file. *)
Definition demo_unit (name : string) (next : N) (opened : bool) : outputunit :=
  mk_outputunit "demo" "data/" 100
    (mk_window 0 10 2 [0; 3; -1] [5; 7; 4] [1; 2; 1]) "vx" name next opened.

Definition demo_memory : memory :=
  mk_memory {[ 1%N := demo_unit "a" 2 true; 2%N := demo_unit "b" 0 false ]}
            3 [New 1%N; New 2%N; SetNext 1%N 2%N; GetNext 1%N].

(** A [write_unit] that opens the file of the unit. *)
Definition demo_write_unit (tstep : Z) (dt : Q) (d : unit) (u : outputunit)
    : outputunit :=
  mk_outputunit (u_probname u) (u_datadir u) (u_nt u) (u_window u)
                (u_field u) (u_name u) (u_next u) true.

(** ** Files that bend or break the format *)

(** What may follow the twelfth integer on its line: nothing, or white
    space and then any text. *)
Definition wf_tail (tl : string) : bool :=
  string_forall not_nl tl && (is_empty tl || starts_space tl).

(** A declaration the constructor reads in full. *)
Definition wf_item_loose (it : item) : bool :=
  negb (is_empty (i_name it)) && string_forall not_nl (i_name it)
  && string_forall isspace (fst (i_field it))
  && negb (is_empty (snd (i_field it)))
  && string_forall not_space (snd (i_field it))
  && (length (i_ints it) =? 12)%nat
  && forallb (fun t => wf_gap t && wf_lit (snd t)) (i_ints it)
  && wf_tail (i_tail it).

(** The same declaration, written with one space in front of each
    integer and nothing else around the tokens. *)
Definition normalise (it : item) : item :=
  mk_item (i_name it) (EmptyString, snd (i_field it))
          (map (fun t => (" ", snd t)) (i_ints it)) EmptyString.

(** The locals [name], [field] and the int locals after the
    declarations [its] were read. *)
Definition locals_after (its : list item) (st : string * string * window)
    : string * string * window :=
  fold_left (fun _ it => (i_name it, snd (i_field it), item_window it)) its st.

(** The unit made of a name and of the locals as they stand. *)
Definition unit_of_locals (probname datadir : string) (nt : Z)
    (name : string) (st : string * string * window) : outputunit :=
  let w := snd st in
  new_outputunit probname datadir nt (tm w) (tp w) (ts w) (xm w) (xp w) (xs w)
                 (snd (fst st)) name.

(** What follows a name line when the file holds nothing more: the end
    of the file, or a newline and white space. *)
Definition only_space_after (tl : string) : bool :=
  match tl with
  | EmptyString => true
  | String c r => Ascii.eqb c nl && string_forall isspace r
  end.

(** A character that starts neither white space nor an integer. *)
Definition plain_char (c : ascii) : bool :=
  negb (isspace c) && negb (isdigit c)
  && negb (Ascii.eqb c "-") && negb (Ascii.eqb c "+").

(** A declaration that breaks off at its first integer: the name line,
    the field word, white space and then text that starts with [c]. *)
Definition broken_text (name fws fw gap : string) (c : ascii) (junk : string)
    : string :=
  name +:+ endl +:+ fws +:+ fw +:+ gap +:+ String c junk.

Definition wf_broken (name fws fw gap : string) (c : ascii) : bool :=
  negb (is_empty name) && string_forall not_nl name
  && string_forall isspace fws
  && negb (is_empty fw) && string_forall not_space fw
  && negb (is_empty gap) && string_forall isspace gap
  && plain_char c.

(** A declaration spread over three lines, with a remark behind the
    last integer. *)
Definition demo_item3 : item :=
  mk_item "body waves" ("  ", "vx")
    [(" ", "0"); (" ", "100"); (" ", "10");
     (endl, "0"); (" ", "9"); (" ", "1"); (" ", "0"); (" ", "9"); (" ", "1");
     (endl +:+ "  ", "-3"); (" ", "+3"); (" ", "007")]
    "   # every tenth step".

(** Lines ended by carriage return and newline. *)
Definition cr : ascii := ascii_of_nat 13.

Definition render_crlf (ls : list string) : string :=
  fold_right (fun l r => l +:+ String cr endl +:+ r) EmptyString ls.

(** * Properties *)

(** ** Reading tokens and lines *)

Lemma append_cons c (a b : string) : String c a +:+ b = String c (a +:+ b).
Proof. reflexivity. Qed.

Lemma length_append (a b : string) :
  String.length (a +:+ b) = (String.length a + String.length b)%nat.
Proof. induction a as [|c a IH]; simpl; [reflexivity | now rewrite IH]. Qed.

Lemma read_line_line l r :
  string_forall not_nl l = true ->
  read_line (l +:+ endl +:+ r) = (l, Some r).
Proof.
  induction l as [|c l IH]; simpl; intros H.
  - reflexivity.
  - apply andb_prop in H as [Hc Hl]. unfold not_nl in Hc.
    apply negb_true_iff in Hc. rewrite Hc, (IH Hl). reflexivity.
Qed.

Lemma getline_line l r old :
  string_forall not_nl l = true ->
  getline (mk_istream (l +:+ endl +:+ r) false false) old
  = (mk_istream r false false, l).
Proof.
  intros H. unfold getline, good. simpl. now rewrite (read_line_line l r H).
Qed.

Lemma skipws_spaces ws r :
  string_forall isspace ws = true -> skipws (ws +:+ r) = skipws r.
Proof.
  induction ws as [|c ws IH]; simpl; intros H; [reflexivity|].
  apply andb_prop in H as [Hc Hws]. now rewrite Hc, IH.
Qed.

Lemma read_word_word w r :
  string_forall not_space w = true -> starts_space r = true ->
  read_word (w +:+ r) = (w, r).
Proof.
  induction w as [|c w IH]; simpl; intros Hw Hr.
  - destruct r as [|d r]; [discriminate|]. simpl in *. now rewrite Hr.
  - apply andb_prop in Hw as [Hc Hw]. unfold not_space in Hc.
    apply negb_true_iff in Hc. now rewrite Hc, (IH Hw Hr).
Qed.

Lemma space_not_digit c : isspace c = true -> isdigit c = false.
Proof.
  unfold isspace, isdigit. intros H.
  apply orb_prop in H as [H | H].
  - apply Nat.eqb_eq in H. now rewrite H.
  - apply andb_prop in H as [_ H]. apply Nat.leb_le in H.
    apply andb_false_iff. left. apply Nat.leb_gt. lia.
Qed.

Lemma digit_not_space c : isdigit c = true -> isspace c = false.
Proof.
  intros H. destruct (isspace c) eqn:E; [|reflexivity].
  apply space_not_digit in E. congruence.
Qed.

Lemma read_digits_digits ds r acc seen :
  string_forall isdigit ds = true -> starts_space r = true ->
  read_digits (ds +:+ r) acc seen
  = (acc * 10 ^ Z.of_nat (String.length ds) + dec_value ds,
     seen || negb (is_empty ds), r).
Proof.
  revert acc seen. induction ds as [|c ds IH]; intros acc seen Hds Hr.
  - destruct r as [|d r]; [discriminate|]. simpl in Hr. simpl.
    rewrite (space_not_digit d Hr), orb_false_r. f_equal. f_equal. lia.
  - simpl in Hds. apply andb_prop in Hds as [Hc Hds].
    rewrite append_cons. simpl read_digits. rewrite Hc, (IH _ _ Hds Hr).
    rewrite orb_true_r. f_equal. f_equal.
    change (String.length (String c ds)) with (S (String.length ds)).
    rewrite Nat2Z.inj_succ, Z.pow_succ_r by lia.
    simpl dec_value. ring.
Qed.

Lemma starts_space_nonempty r : starts_space r = true -> is_empty r = false.
Proof. now destruct r. Qed.

Lemma starts_space_gap ws r :
  is_empty ws = false -> string_forall isspace ws = true ->
  starts_space (ws +:+ r) = true.
Proof.
  destruct ws as [|c ws]; [discriminate|]. simpl.
  intros _ H. now apply andb_prop in H as [H _].
Qed.

Lemma starts_space_tail tl r :
  string_forall blank tl = true -> starts_space (tl +:+ endl +:+ r) = true.
Proof.
  destruct tl as [|c tl]; simpl; [reflexivity|].
  intros H. apply andb_prop in H as [H _]. unfold blank in H.
  now apply andb_prop in H as [H _].
Qed.

Lemma blank_not_nl tl :
  string_forall blank tl = true -> string_forall not_nl tl = true.
Proof.
  induction tl as [|c tl IH]; simpl; [reflexivity|].
  intros H. apply andb_prop in H as [Hc H]. unfold blank in Hc.
  apply andb_prop in Hc as [_ Hc]. now rewrite Hc, IH.
Qed.

(** [>>] reads a word that is followed by white space. *)
Lemma extract_string_word ws w r old :
  string_forall isspace ws = true ->
  is_empty w = false -> string_forall not_space w = true ->
  starts_space r = true ->
  extract_string (mk_istream (ws +:+ w +:+ r) false false) old
  = (mk_istream r false false, w).
Proof.
  intros Hws Hne Hw Hr. unfold extract_string, sentry, good. simpl.
  rewrite (skipws_spaces ws _ Hws).
  destruct w as [|c w]; [discriminate|]. simpl in Hw.
  apply andb_prop in Hw as [Hc Hw]. unfold not_space in Hc.
  apply negb_true_iff in Hc. rewrite append_cons. simpl skipws. rewrite Hc.
  simpl buf. simpl read_word. rewrite Hc, (read_word_word w r Hw Hr).
  now rewrite (starts_space_nonempty r Hr).
Qed.

Lemma sentry_token ws c t :
  string_forall isspace ws = true -> isspace c = false ->
  sentry (mk_istream (ws +:+ String c t) false false)
  = (mk_istream (String c t) false false, true).
Proof.
  intros Hws Hc. unfold sentry, good. simpl.
  rewrite (skipws_spaces ws _ Hws). simpl. now rewrite Hc.
Qed.

Lemma read_sign_append lit r :
  is_empty lit = false ->
  read_sign (lit +:+ r) = (fst (read_sign lit), snd (read_sign lit) +:+ r).
Proof.
  destruct lit as [|c l]; [discriminate|]. intros _.
  rewrite append_cons. simpl.
  destruct (Ascii.eqb c "-"); [reflexivity|].
  destruct (Ascii.eqb c "+"); reflexivity.
Qed.

Lemma wf_lit_first lit :
  wf_lit lit = true ->
  exists c l, lit = String c l /\ isspace c = false.
Proof.
  unfold wf_lit, lit_digits. intros H.
  destruct lit as [|c l]; [discriminate|]. exists c, l. split; [reflexivity|].
  apply andb_prop in H as [H _]. apply andb_prop in H as [H _].
  apply andb_prop in H as [Hne Hds]. simpl in *.
  destruct (Ascii.eqb c "-") eqn:E1.
  { apply Ascii.eqb_eq in E1. now subst c. }
  destruct (Ascii.eqb c "+") eqn:E2.
  { apply Ascii.eqb_eq in E2. now subst c. }
  simpl in *. apply andb_prop in Hds as [Hc _]. now apply digit_not_space.
Qed.

(** [>>] reads an integer literal that is followed by white space. *)
Lemma extract_int_lit ws lit r old :
  string_forall isspace ws = true -> wf_lit lit = true ->
  starts_space r = true ->
  extract_int (mk_istream (ws +:+ lit +:+ r) false false) old
  = (mk_istream r false false, lit_value lit).
Proof.
  intros Hws Hlit Hr.
  destruct (wf_lit_first lit Hlit) as (c & l & -> & Hc).
  unfold extract_int. rewrite append_cons, (sentry_token ws c _ Hws Hc).
  simpl buf. rewrite <- append_cons, read_sign_append by reflexivity.
  unfold wf_lit, lit_value, lit_digits in *.
  apply andb_prop in Hlit as [Hlit Hmax]. apply andb_prop in Hlit as [Hlit Hmin].
  apply andb_prop in Hlit as [Hne Hds].
  rewrite read_digits_digits by assumption.
  apply negb_true_iff in Hne. rewrite Hne. simpl negb. cbv iota.
  rewrite Z.mul_0_l, Z.add_0_l.
  rewrite (starts_space_nonempty r Hr).
  apply Z.leb_le in Hmin, Hmax.
  destruct (fst (read_sign (String c l))).
  - rewrite (proj2 (Z.ltb_ge _ _)), (proj2 (Z.ltb_ge _ _)) by lia. reflexivity.
  - rewrite (proj2 (Z.ltb_ge _ _)), (proj2 (Z.ltb_ge _ _)) by lia. reflexivity.
Qed.

Lemma wf_gap_inv t :
  wf_gap t = true ->
  is_empty (fst t) = false /\ string_forall isspace (fst t) = true.
Proof.
  unfold wf_gap. intros H. apply andb_prop in H as [H1 H2].
  now apply negb_true_iff in H1.
Qed.

Ltac split_andb :=
  repeat match goal with
         | H : _ && _ = true |- _ => apply andb_prop in H as [? ?]
         | H : wf_gap _ = true |- _ => apply wf_gap_inv in H as [? ?]
         end.

Ltac starts :=
  first [ apply starts_space_gap; assumption
        | apply starts_space_tail; assumption ].

(** The thirteen extractions read a well-formed declaration: they stop
    in front of what is left of its last line. *)
Lemma read_item_item it rest field w :
  wf_item it = true -> win_ok w ->
  read_item (mk_istream (render_spaced (i_field it :: i_ints it)
                           (i_tail it +:+ endl +:+ rest)) false false) field w
  = (mk_istream (i_tail it +:+ endl +:+ rest) false false,
     snd (i_field it), item_window it).
Proof.
  destruct it as [nm [fws fw] ints tl]. unfold wf_item. simpl.
  intros H (Hm & Hp & Hs). split_andb.
  match goal with H : (length ints =? 12)%nat = true |- _ =>
    apply Nat.eqb_eq in H end.
  do 12 (destruct ints as [|[? ?] ints]; [discriminate|]).
  destruct ints; [|discriminate].
  simpl in *. split_andb. simpl in *.
  match goal with H : negb (is_empty fw) = true |- _ =>
    apply negb_true_iff in H end.
  destruct w as [a b c wm wp ws]. simpl in *.
  destruct wm as [|? [|? [|? [|]]]]; try discriminate.
  destruct wp as [|? [|? [|? [|]]]]; try discriminate.
  destruct ws as [|? [|? [|? [|]]]]; try discriminate.
  unfold read_item.
  rewrite extract_string_word by (assumption || starts).
  repeat (rewrite extract_int_lit by (assumption || starts); simpl).
  reflexivity.
Qed.

(** ** Appending to the list *)

Lemma set_next_unit_twice u p q :
  set_next_unit (set_next_unit u p) q = set_next_unit u q.
Proof. reflexivity. Qed.

Lemma layout_snoc us u p :
  layout (us ++ [u]) p =
    if decide (p = N.of_nat (S (length us))) then Some (set_next_unit u null)
    else if decide (p = N.of_nat (length us))
         then (fun v => set_next_unit v (N.succ p)) <$> layout us p
         else layout us p.
Proof.
  unfold layout. destruct (N.to_nat p) as [|i] eqn:E.
  - repeat case_decide; try reflexivity; lia.
  - rewrite length_app. simpl length.
    destruct (decide (p = N.of_nat (S (length us)))) as [->|Hp].
    + rewrite Nat2N.id in E. injection E as <-.
      rewrite lookup_app_r, Nat.sub_diag by lia. simpl.
      case_decide; [reflexivity | lia].
    + destruct (decide (p = N.of_nat (length us))) as [->|Hq].
      * rewrite Nat2N.id in E. rewrite lookup_app_l by lia.
        destruct (us !! i); simpl; [|reflexivity].
        repeat case_decide; try lia. reflexivity.
      * assert (S i <> length us) by lia. assert (i <> length us) by lia.
        destruct (decide (i < length us)%nat).
        -- rewrite lookup_app_l by lia.
           destruct (us !! i); simpl; [|reflexivity].
           repeat case_decide; try lia; reflexivity.
        -- rewrite !(proj2 (lookup_ge_None _ _)); [reflexivity | lia |].
           rewrite length_app. simpl. lia.
Qed.

Lemma layout_tail us x :
  us !! pred (length us) = Some x -> us <> [] ->
  layout us (N.of_nat (length us)) = Some (set_next_unit x null).
Proof.
  intros Hx Hne. unfold layout. rewrite Nat2N.id.
  destruct (length us) as [|k] eqn:E.
  - destruct us; [congruence | discriminate].
  - simpl in Hx. rewrite Hx. simpl. case_decide; [reflexivity | lia].
Qed.

(** Lines 58 to 65 on the empty list: the new node becomes the root. *)
Lemma append_first m u :
  holds m [] -> set_next_unit u null = u ->
  holds (fst (new m u)) [u] /\ snd (new m u) = 1%N.
Proof.
  intros (Hc & Hb & Hl) Hu. simpl in *. rewrite Hb. split; [|reflexivity].
  split; [|split]; simpl.
  - intros p. change [u] with ([] ++ [u]).
    rewrite lookup_insert, (layout_snoc [] u p), Hu. simpl.
    case_decide; subst.
    + case_decide; [reflexivity | lia].
    + case_decide; [lia|]. rewrite Hc.
      case_decide; [subst; reflexivity | reflexivity].
  - reflexivity.
  - now rewrite Hl.
Qed.

(** Lines 58 to 65 on a list that is not empty: the new node is linked
    behind the old tail, which [nunit] designates. *)
Lemma append_next m us u :
  holds m us -> us <> [] -> set_next_unit u null = u ->
  let nunit := N.of_nat (length us) in
  let '(m1, cunit) := new m u in
  exists m3,
    (m2 ← call_set_next_unit m1 nunit cunit;
     call_get_next_unit m2 nunit) = Returns (m3, cunit) /\
    cunit = N.of_nat (S (length us)) /\
    holds m3 (us ++ [u]).
Proof.
  intros (Hc & Hb & Hl) Hne Hu. simpl.
  destruct (lookup_lt_is_Some_2 us (pred (length us))) as [x Hx].
  { destruct us; [congruence | simpl; lia]. }
  pose proof (layout_tail us x Hx Hne) as Ht.
  unfold call_set_next_unit, call_get_next_unit, deref. simpl.
  rewrite Hb.
  rewrite lookup_insert_ne by lia. rewrite Hc, Ht. simpl.
  rewrite lookup_insert_eq. simpl.
  eexists. split; [reflexivity|]. split; [reflexivity|].
  split; [|split]; simpl.
  - intros p. rewrite layout_snoc, !lookup_insert, Hu.
    destruct (decide (p = N.of_nat (S (length us)))) as [->|Hp].
    + case_decide; [lia|]. case_decide; [reflexivity | congruence].
    + destruct (decide (p = N.of_nat (length us))) as [->|Hq].
      * case_decide; [|congruence]. rewrite Ht. simpl.
        rewrite set_next_unit_twice. do 2 f_equal. lia.
      * case_decide; [congruence|]. case_decide; [congruence|]. apply Hc.
  - rewrite length_app. simpl. lia.
  - rewrite Hl, length_app, Nat.add_1_r. simpl construction_log.
    destruct (length us) as [|k] eqn:E.
    { destruct us; [congruence | discriminate]. }
    rewrite <- !app_assoc. reflexivity.
Qed.

Lemma win_ok_item it : win_ok (item_window it).
Proof. repeat split. Qed.

Lemma win_ok_uninitialised garbage : win_ok (uninitialised garbage).
Proof. repeat split. Qed.

Lemma holds_empty : holds empty_memory [].
Proof.
  split; [|split]; try reflexivity.
  intros p. simpl. rewrite lookup_empty. unfold layout.
  now destruct (N.to_nat p).
Qed.

(** ** The constructor on a well-formed section *)

Section ConstructorProofs.

Variables (probname datadir : string) (nt : Z).

Local Abbreviation unit_of := (item_unit probname datadir nt).

Lemma unit_of_fresh it : set_next_unit (unit_of it) null = unit_of it.
Proof. reflexivity. Qed.

(** The loop reads the declarations one after the other, appends a unit
    for each, and stops at the blank line or at the end of the file. *)
Lemma read_units_items its :
  forall fuel rest line name field w m us cunit nunit,
    forallb wf_item its = true -> wf_post rest = true -> win_ok w ->
    (length its < fuel)%nat ->
    holds m us -> (us <> [] -> nunit = N.of_nat (length us)) ->
    exists m',
      read_units probname datadir nt fuel
        (mk_istream (render_items its rest) false false)
        line name field w m (root_of (length us)) cunit nunit
      = Returns (m', root_of (length us + length its))
      /\ holds m' (us ++ map unit_of its).
Proof.
  induction its as [|it its IH];
    intros fuel rest line name field w m us cunit nunit Hits Hrest Hw Hfuel Hm Hn.
  - destruct fuel as [|k]; [simpl in Hfuel; lia|].
    rewrite Nat.add_0_r, app_nil_r. exists m. split; [|assumption].
    simpl. unfold getline, good. simpl.
    destruct rest as [|c r]; simpl in *.
    + reflexivity.
    + now rewrite Hrest.
  - destruct fuel as [|k]; [simpl in Hfuel; lia|].
    simpl in Hits. apply andb_prop in Hits as [Hit Hits].
    pose proof Hit as Hit'. unfold wf_item in Hit'. split_andb.
    match goal with H : negb (is_empty (i_name it)) = true |- _ =>
      apply negb_true_iff in H; rename H into Hname end.
    simpl render_items. unfold render_item at 1.
    cbn [read_units]. rewrite getline_line by assumption.
    cbn [fail failbit]. rewrite Hname.
    rewrite (read_item_item it _ _ _ Hit Hw).
    rewrite getline_line by (now apply blank_not_nl).
    fold (unit_of it).
    destruct us as [|u0 us0].
    + destruct (append_first m (unit_of it) Hm (unit_of_fresh it)) as [Hm1 Hc1].
      destruct (new m (unit_of it)) as [m1 c1] eqn:En. simpl in Hm1, Hc1.
      subst c1. cbn [length root_of]. cbn [N.eqb null].
      destruct (IH k rest (i_tail it) (i_name it) (snd (i_field it))
                  (item_window it) m1 [unit_of it] 1%N 1%N Hits Hrest
                  (win_ok_item it)) as (m' & Hr & Hm').
      { simpl in Hfuel. lia. }
      { assumption. }
      { reflexivity. }
      exists m'. split; [|exact Hm'].
      simpl in Hr. simpl. exact Hr.
    + pose proof (append_next m (u0 :: us0) (unit_of it) Hm ltac:(discriminate)
                    (unit_of_fresh it)) as Ha.
      rewrite (Hn ltac:(discriminate)).
      cbv zeta in Ha.
      destruct (new m (unit_of it)) as [m1 c1] eqn:En.
      destruct Ha as (m3 & Hcall & Hc1 & Hm3).
      cbn [length root_of]. change (1 =? null)%N with false. cbv iota.
      destruct (call_set_next_unit m1 (N.of_nat (length (u0 :: us0))) c1)
        as [m2| | |] eqn:E2; try discriminate.
      simpl in Hcall. simpl length in *. rewrite E2.
      cbn [mbind run_bind]. rewrite Hcall. cbv beta iota.
      destruct (IH k rest (i_tail it) (i_name it) (snd (i_field it))
                  (item_window it) m3 ((u0 :: us0) ++ [unit_of it]) c1 c1
                  Hits Hrest (win_ok_item it)) as (m' & Hr & Hm').
      { simpl in Hfuel. lia. }
      { assumption. }
      { intros _. rewrite Hc1, length_app. simpl. f_equal. lia. }
      exists m'. rewrite <- app_assoc in Hm'. split; [|exact Hm'].
      rewrite length_app in Hr. simpl in Hr.
      replace (S (length us0 + 1) + length its)%nat
        with (S (length us0) + S (length its))%nat in Hr by lia.
      simpl in Hr. simpl. exact Hr.
Qed.

Lemma marker_not_nl : string_forall not_nl marker = true.
Proof. reflexivity. Qed.

(** The scan steps over the lines in front of the marker line and stops
    behind it, with the stream still good. *)
Lemma scan_pre pre :
  forall fuel rest line,
    wf_pre pre = true -> (length pre < fuel)%nat ->
    scan fuel (mk_istream (render_lines pre (marker +:+ endl +:+ rest))
                 false false) line
    = Returns (mk_istream rest false false, marker).
Proof.
  induction pre as [|l pre IH]; intros fuel rest line Hpre Hfuel;
    (destruct fuel as [|k]; [simpl in Hfuel; lia|]).
  - cbn [render_lines fold_right scan].
    rewrite (getline_line marker rest line marker_not_nl).
    cbn [fail failbit]. now rewrite String.eqb_refl.
  - simpl in Hpre. apply andb_prop in Hpre as [Hl Hpre].
    apply andb_prop in Hl as [Hl Hne]. apply negb_true_iff in Hne.
    cbn [render_lines fold_right scan]. rewrite getline_line by assumption.
    cbn [fail failbit]. rewrite Hne. apply IH; [assumption|]. simpl in Hfuel. lia.
Qed.

Lemma length_render_lines ls r :
  (length ls + String.length r <= String.length (render_lines ls r))%nat.
Proof.
  induction ls as [|l ls IH]; simpl; [lia|].
  rewrite !length_append. simpl. lia.
Qed.

Lemma length_render_spaced l r :
  (String.length r <= String.length (render_spaced l r))%nat.
Proof.
  induction l as [|t l IH]; simpl; [lia|]. rewrite !length_append. lia.
Qed.

Lemma length_render_items its r :
  (length its + String.length r <= String.length (render_items its r))%nat.
Proof.
  induction its as [|it its IH]; simpl; [lia|].
  unfold render_item. rewrite !length_append. simpl.
  pose proof (length_render_spaced (i_field it :: i_ints it)
                (i_tail it +:+ endl +:+ render_items its r)) as Hs.
  rewrite !length_append in Hs. simpl in Hs. lia.
Qed.

(** The constructor on a well-formed file: it returns, and the memory
    holds the declared units in the order of their declarations. *)
Lemma outputlist_wf garbage pre its post :
  wf_file pre its post = true ->
  exists m,
    outputlist probname datadir nt garbage (Some (render_file pre its post))
    = Returns (m, root_of (length its))
    /\ holds m (map unit_of its).
Proof.
  unfold wf_file. intros H. apply andb_prop in H as [H Hpost].
  apply andb_prop in H as [Hpre Hits].
  unfold outputlist, render_file, open.
  pose proof (length_render_lines pre (marker +:+ endl +:+ render_items its post)) as L1.
  pose proof (length_render_items its post) as L2.
  rewrite !length_append in L1. simpl String.length in L1.
  rewrite scan_pre by (assumption || lia).
  cbn [mbind run_bind eof eofbit].
  destruct (read_units_items its
              (S (String.length (render_lines pre
                   (marker +:+ endl +:+ render_items its post))))
              post marker EmptyString EmptyString (uninitialised garbage)
              empty_memory [] null null Hits Hpost
              (win_ok_uninitialised garbage)) as (m & Hr & Hm).
  { lia. }
  { exact holds_empty. }
  { congruence. }
  exists m. split; [exact Hr | exact Hm].
Qed.

End ConstructorProofs.

(** ** What a memory that holds [us] looks like *)

Lemma holds_lookup m us i u :
  holds m us -> us !! i = Some u ->
  exists v, cells m !! N.of_nat (S i) = Some v /\ same_unit v u /\
            get_next_unit v = (if decide (S i = length us) then null
                               else N.of_nat (S (S i))).
Proof.
  intros (Hc & _) Hu. rewrite Hc. unfold layout. rewrite Nat2N.id, Hu. simpl.
  eexists. split; [reflexivity|]. split; [reflexivity|].
  simpl. case_decide; [reflexivity | lia].
Qed.

Lemma holds_chain_from m us k :
  holds m us ->
  forall i, (i + k = length us)%nat ->
    chain (cells m) (match k with O => null | S _ => N.of_nat (S i) end)
          (N.of_nat <$> seq (S i) k).
Proof.
  intros Hm. induction k as [|k IH]; intros i Hi; [reflexivity|].
  simpl. split; [reflexivity|]. split; [unfold null; lia|].
  destruct (lookup_lt_is_Some_2 us i) as [u Hu]; [lia|].
  destruct (holds_lookup m us i u Hm Hu) as (v & Hv & _ & Hnext).
  exists v. split; [exact Hv|]. rewrite Hnext.
  specialize (IH (S i) ltac:(lia)).
  destruct k as [|k].
  - case_decide; [exact IH | lia].
  - case_decide; [lia | exact IH].
Qed.

Lemma holds_chain m us :
  holds m us ->
  chain (cells m) (root_of (length us)) (addresses (length us)).
Proof.
  intros Hm. pose proof (holds_chain_from m us (length us) Hm 0%nat eq_refl) as H.
  unfold addresses, root_of. destruct (length us); exact H.
Qed.

(** ** Chains *)

Lemma chain_functional c ps :
  forall p qs, chain c p ps -> chain c p qs -> ps = qs.
Proof.
  induction ps as [|a ps IH]; intros p qs H1 H2.
  - destruct qs as [|b qs]; [reflexivity|]. simpl in *.
    destruct H2 as (-> & Hb & _). congruence.
  - destruct qs as [|b qs]; simpl in *.
    + destruct H1 as (-> & Ha & _). congruence.
    + destruct H1 as (-> & _ & u & Hu & H1). destruct H2 as (<- & _ & v & Hv & H2).
      rewrite Hu in Hv. injection Hv as <-. f_equal. eauto.
Qed.

Lemma chain_suffix c l1 :
  forall p a l2, chain c p (l1 ++ a :: l2) -> chain c a (a :: l2).
Proof.
  induction l1 as [|b l1 IH]; intros p a l2 H; simpl in *.
  - destruct H as (-> & H). split; [reflexivity | exact H].
  - destruct H as (_ & _ & u & _ & H). eauto.
Qed.

Lemma chain_NoDup c ps : forall p, chain c p ps -> NoDup ps.
Proof.
  induction ps as [|a ps IH]; intros p H; [constructor|].
  pose proof H as H0. simpl in H. destruct H as (-> & Ha & u & Hu & H).
  constructor; [|eauto].
  intros Hin. apply list_elem_of_split in Hin as (l1 & l2 & ->).
  pose proof (chain_suffix c l1 _ a l2 H) as Hs.
  pose proof (chain_functional c _ _ _ H0 Hs) as E.
  apply (f_equal length) in E. rewrite !length_cons, length_app in E.
  simpl in E. lia.
Qed.

Lemma chain_live c ps : forall p q, chain c p ps -> q ∈ ps -> is_Some (c !! q).
Proof.
  induction ps as [|a ps IH]; intros p q H Hq; [inversion Hq|].
  simpl in H. destruct H as (-> & _ & u & Hu & H).
  apply elem_of_cons in Hq as [->|Hq]; [rewrite Hu; eauto | eauto].
Qed.

Lemma chain_length c ps p : chain c p ps -> (length ps <= size c)%nat.
Proof.
  intros H. pose proof (chain_NoDup c ps p H) as Hnd.
  rewrite <- (size_list_to_set (C := gset N) ps Hnd), <- size_dom.
  apply subseteq_size. intros q Hq. apply elem_of_list_to_set in Hq.
  apply elem_of_dom. eapply chain_live; eauto.
Qed.

Lemma chain_not_null c ps p : chain c p ps -> null ∉ ps.
Proof.
  revert p. induction ps as [|a ps IH]; intros p H Hin; [inversion Hin|].
  simpl in H. destruct H as (-> & Ha & u & _ & H).
  apply elem_of_cons in Hin as [E|Hin]; [congruence | exact (IH _ H Hin)].
Qed.

(** Changing a node without touching its link keeps every chain. *)
Lemma chain_insert_link c q u u' ps :
  c !! q = Some u -> get_next_unit u' = get_next_unit u ->
  forall p, chain c p ps -> chain (<[q := u']> c) p ps.
Proof.
  intros Hq Hn. induction ps as [|a ps IH]; intros p H; [exact H|].
  simpl in *. destruct H as (-> & Ha & v & Hv & H).
  split; [reflexivity|]. split; [exact Ha|].
  destruct (decide (q = a)) as [->|Hne].
  - exists u'. rewrite lookup_insert_eq. split; [reflexivity|].
    rewrite Hn. rewrite Hq in Hv. injection Hv as <-. eauto.
  - exists v. rewrite lookup_insert_ne by exact Hne. eauto.
Qed.

(** Deleting a node that is not on the chain keeps the chain. *)
Lemma chain_delete c q ps :
  q ∉ ps -> forall p, chain c p ps -> chain (delete q c) p ps.
Proof.
  induction ps as [|a ps IH]; intros Hq p H; [exact H|].
  simpl in *. destruct H as (-> & Ha & v & Hv & H).
  apply not_elem_of_cons in Hq as [Hne Hq].
  split; [reflexivity|]. split; [exact Ha|].
  exists v. rewrite lookup_delete_ne by exact Hne. eauto.
Qed.

(** ** Walking the list *)

Lemma write_loop_visit {real domain : Type}
    (write_unit : Z -> real -> domain -> outputunit -> outputunit)
    tstep dt d fuel :
  forall m p,
    write_loop real domain write_unit fuel tstep dt d m p
    = visit_loop (write_unit tstep dt d) WriteUnit fuel m p.
Proof.
  induction fuel as [|k IH]; intros m p; [reflexivity|].
  simpl. destruct (p =? null)%N; [reflexivity|].
  unfold call_write_unit.
  destruct (deref m p) as [u| | |]; simpl; try reflexivity.
  destruct (call_get_next_unit _ p) as [[m1 q]| | |]; simpl; try reflexivity.
  apply IH.
Qed.

Lemma close_loop_visit fuel :
  forall m p, close_loop fuel m p = visit_loop close_file CloseFile fuel m p.
Proof.
  induction fuel as [|k IH]; intros m p; [reflexivity|].
  simpl. destruct (p =? null)%N; [reflexivity|].
  unfold call_close_file.
  destruct (deref m p) as [u| | |]; simpl; try reflexivity.
  destruct (call_get_next_unit _ p) as [[m1 q]| | |]; simpl; try reflexivity.
  apply IH.
Qed.

Lemma alter_found (f : outputunit -> outputunit) (c : gmap N outputunit) q u :
  c !! q = Some u -> alter f q c = <[q := f u]> c.
Proof.
  intros Hq. apply map_eq. intros i.
  destruct (decide (q = i)) as [->|Hne].
  - now rewrite lookup_alter_eq, lookup_insert_eq, Hq.
  - now rewrite lookup_alter_ne, lookup_insert_ne.
Qed.

Section Visit.

Variables (f : outputunit -> outputunit) (ev : N -> event).
Hypothesis f_link : forall u, get_next_unit (f u) = get_next_unit u.

(** On a chain the walk returns, having called [f] once on each node,
    in the order of the chain. *)
Lemma visit_loop_chain ps :
  forall fuel m p,
    chain (cells m) p ps -> (length ps < fuel)%nat ->
    visit_loop f ev fuel m p = Returns (visit_result f ev m ps).
Proof.
  induction ps as [|a ps IH]; intros fuel m p H Hfuel;
    (destruct fuel as [|k]; [simpl in Hfuel; lia|]); simpl in H.
  - subst p. simpl. unfold visit_result, visit_events. simpl.
    rewrite app_nil_r. now destruct m.
  - destruct H as (-> & Ha & u & Hu & H).
    cbn [visit_loop]. apply N.eqb_neq in Ha. rewrite Ha.
    unfold deref, call_get_next_unit, deref. rewrite Hu. simpl.
    rewrite lookup_insert_eq. simpl. rewrite f_link.
    rewrite (IH k _ (get_next_unit u)).
    + unfold visit_result, visit_events. simpl.
      rewrite (alter_found f (cells m) a u Hu), <- !app_assoc. reflexivity.
    + simpl. apply (chain_insert_link _ a u); [exact Hu | apply f_link | exact H].
    + simpl in Hfuel. lia.
Qed.

Lemma visit_cells_outside ps :
  forall (c : gmap N outputunit) p, p ∉ ps ->
    foldl (fun c p => alter f p c) c ps !! p = c !! p.
Proof.
  induction ps as [|a ps IH]; intros c p Hp; [reflexivity|].
  apply not_elem_of_cons in Hp as [Hne Hp]. simpl.
  rewrite IH by exact Hp. now rewrite lookup_alter_ne.
Qed.

Lemma visit_cells_inside ps :
  forall (c : gmap N outputunit) p, NoDup ps -> p ∈ ps ->
    foldl (fun c p => alter f p c) c ps !! p = f <$> c !! p.
Proof.
  induction ps as [|a ps IH]; intros c p Hnd Hp; [inversion Hp|].
  apply NoDup_cons in Hnd as [Ha Hnd]. simpl.
  apply elem_of_cons in Hp as [->|Hp].
  - rewrite visit_cells_outside by exact Ha. now rewrite lookup_alter_eq.
  - rewrite IH by assumption. rewrite lookup_alter_ne; [reflexivity|].
    intros ->. contradiction.
Qed.

Lemma chain_alter q ps :
  forall (c : gmap N outputunit) p, chain c p ps -> chain (alter f q c) p ps.
Proof.
  intros c p H. destruct (c !! q) as [u|] eqn:Hq.
  - rewrite (alter_found f c q u Hq).
    now apply (chain_insert_link c q u).
  - replace (alter f q c) with c; [exact H|].
    apply map_eq. intros i. destruct (decide (q = i)) as [->|Hne].
    + now rewrite lookup_alter_eq, Hq.
    + now rewrite lookup_alter_ne.
Qed.

Lemma visit_chain qs :
  forall (c : gmap N outputunit) p ps,
    chain c p ps -> chain (foldl (fun c p => alter f p c) c qs) p ps.
Proof.
  induction qs as [|q qs IH]; intros c p ps H; [exact H|].
  simpl. apply IH. now apply chain_alter.
Qed.

End Visit.

Lemma written_visit ps : written (visit_events WriteUnit ps) = ps.
Proof. induction ps as [|a ps IH]; simpl; [reflexivity | now rewrite IH]. Qed.

Lemma closed_visit ps : closed (visit_events CloseFile ps) = ps.
Proof. induction ps as [|a ps IH]; simpl; [reflexivity | now rewrite IH]. Qed.

(** ** Tearing the list down *)

Lemma destroy_events_delete c q ps :
  q ∉ ps -> destroy_events (delete q c) ps = destroy_events c ps.
Proof.
  induction ps as [|a ps IH]; intros Hq; [reflexivity|].
  apply not_elem_of_cons in Hq as [Hne Hq].
  unfold destroy_events in *. simpl.
  rewrite lookup_delete_ne by exact Hne. now rewrite IH.
Qed.

(** On a chain the destructor returns, having stepped over and deleted
    each node once, in the order of the chain. *)
Lemma destroy_loop_chain ps :
  forall fuel m p,
    chain (cells m) p ps -> (length ps < fuel)%nat ->
    destroy_loop fuel m p p = Returns (destroy_result m ps).
Proof.
  induction ps as [|a ps IH]; intros fuel m p H Hfuel;
    (destruct fuel as [|k]; [simpl in Hfuel; lia|]).
  - simpl in H. subst p. simpl. unfold destroy_result, destroy_events. simpl.
    rewrite app_nil_r. now destruct m.
  - pose proof (chain_NoDup _ _ _ H) as Hnd.
    apply NoDup_cons in Hnd as [Ha' _].
    simpl in H. destruct H as (-> & Ha & u & Hu & H).
    cbn [destroy_loop]. apply N.eqb_neq in Ha. rewrite Ha.
    unfold call_get_next_unit, delete_unit, deref. rewrite Hu. simpl.
    rewrite Hu. simpl.
    rewrite (IH k _ (get_next_unit u)).
    + unfold destroy_result. simpl.
      rewrite (destroy_events_delete _ _ _ Ha').
      unfold destroy_events at 2. simpl. rewrite Hu.
      fold (destroy_events (cells m) ps).
      rewrite <- !app_assoc. reflexivity.
    + simpl. now apply chain_delete.
    + simpl in Hfuel. lia.
Qed.

Lemma destroy_cells_outside ps :
  forall (c : gmap N outputunit) p, p ∉ ps ->
    foldl (fun c p => delete p c) c ps !! p = c !! p.
Proof.
  induction ps as [|a ps IH]; intros c p Hp; [reflexivity|].
  apply not_elem_of_cons in Hp as [Hne Hp]. simpl.
  rewrite IH by exact Hp. now rewrite lookup_delete_ne.
Qed.

Lemma destroy_cells_inside ps :
  forall (c : gmap N outputunit) p, p ∈ ps ->
    foldl (fun c p => delete p c) c ps !! p = None.
Proof.
  induction ps as [|a ps IH]; intros c p Hp; [inversion Hp|]. simpl.
  destruct (decide (p ∈ ps)) as [Hin|Hout].
  - now apply IH.
  - rewrite destroy_cells_outside by exact Hout.
    apply elem_of_cons in Hp as [->|Hp]; [apply lookup_delete_eq | contradiction].
Qed.

Lemma deleted_destroy c ps : deleted (destroy_events c ps) = ps.
Proof.
  induction ps as [|a ps IH]; [reflexivity|].
  unfold destroy_events in *. simpl.
  destruct (c !! a) as [u|]; [destruct (u_open u)|]; simpl; now rewrite IH.
Qed.

Lemma stepped_destroy c ps : stepped (destroy_events c ps) = ps.
Proof.
  induction ps as [|a ps IH]; [reflexivity|].
  unfold destroy_events in *. simpl.
  destruct (c !! a) as [u|]; [destruct (u_open u)|]; simpl; now rewrite IH.
Qed.

Lemma destroy_events_target c ps e :
  e ∈ destroy_events c ps -> target e ∈ ps.
Proof.
  induction ps as [|a ps IH]; intros He; [inversion He|].
  unfold destroy_events in *. simpl in He.
  apply elem_of_cons in He as [->|He]; [left|].
  apply elem_of_app in He as [He|He]; [|right; auto].
  apply elem_of_app in He as [He|He].
  - destruct (c !! a) as [u|]; [destruct (u_open u)|]; try (inversion He; fail).
    apply list_elem_of_singleton in He as ->. left.
  - apply list_elem_of_singleton in He as ->. left.
Qed.

Lemma no_use_after_delete_destroy c ps :
  NoDup ps -> no_use_after_delete (destroy_events c ps).
Proof.
  induction ps as [|a ps IH]; intros Hnd; [exact I|].
  apply NoDup_cons in Hnd as [Ha Hnd]. specialize (IH Hnd).
  assert (Hrest : Forall (fun e' => target e' <> a) (destroy_events c ps)).
  { apply Forall_forall. intros e He E.
    apply destroy_events_target in He. rewrite E in He. contradiction. }
  unfold destroy_events in *. simpl.
  split; [discriminate|].
  destruct (c !! a) as [u|]; [destruct (u_open u)|]; simpl;
    repeat (split; [first [discriminate | intros p [= <-]; assumption]|]);
    exact IH.
Qed.

Lemma released_before_delete_destroy c ps p u :
  p ∈ ps -> c !! p = Some u -> u_open u = true ->
  released_before_delete (destroy_events c ps) p.
Proof.
  intros Hp Hu Ho. apply list_elem_of_split in Hp as (l1 & l2 & ->).
  unfold released_before_delete, destroy_events.
  rewrite flat_map_app. simpl. rewrite Hu, Ho. simpl.
  exists (flat_map (fun p => GetNext p ::
            match c !! p with
            | Some u => if u_open u then [ReleaseFile p] else []
            | None => []
            end ++ [Delete p]) l1 ++ [GetNext p]), [].
  eexists. rewrite <- app_assoc. reflexivity.
Qed.

(** ** A file without the marker line *)

Lemma read_line_lines s :
  match read_line s with
  | (l, Some r) => lines s = l :: lines r /\ (String.length r < String.length s)%nat
  | (l, None) => lines s = [l] /\ l = s
  end.
Proof.
  induction s as [|c s IH]; simpl; [now split|].
  destruct (Ascii.eqb c nl); [split; [reflexivity | lia]|].
  destruct (read_line s) as [l [r|]].
  - destruct IH as [-> IH]. split; [reflexivity | lia].
  - destruct IH as [-> ->]. now split.
Qed.

(** Without a marker line the scan ends with [eofbit] raised. *)
Lemma scan_no_marker fuel :
  forall b line,
    marker ∉ lines b -> (String.length b < fuel)%nat ->
    exists s' line',
      scan fuel (mk_istream b false false) line = Returns (s', line') /\
      eofbit s' = true.
Proof.
  induction fuel as [|k IH]; intros b line Hm Hfuel; [lia|].
  cbn [scan]. unfold getline, good. cbn [eofbit failbit buf orb negb].
  pose proof (read_line_lines b) as Hl.
  destruct (read_line b) as [l [r|]].
  - destruct Hl as [Hl Hlen]. rewrite Hl in Hm.
    apply not_elem_of_cons in Hm as [Hne Hm].
    cbn [fail failbit]. rewrite (proj2 (String.eqb_neq l marker)) by congruence.
    apply IH; [exact Hm | lia].
  - destruct Hl as [Hl ->]. rewrite Hl in Hm.
    apply not_elem_of_cons in Hm as [Hne _].
    cbn [fail failbit]. destruct b as [|c b]; cbn [is_empty].
    + eauto.
    + rewrite (proj2 (String.eqb_neq _ marker)) by congruence.
      destruct k as [|k]; [simpl in Hfuel; lia|].
      cbn [scan]. unfold getline, good. cbn [eofbit failbit buf orb negb setfail fail].
      eauto.
Qed.

(** ** From the invariant of the constructor to the list *)

Lemma holds_lists m us : holds m us -> lists m (root_of (length us)) us.
Proof.
  intros Hm. split; [now apply holds_chain|].
  intros i u Hu. destruct (holds_lookup m us i u Hm Hu) as (v & Hv & Hs & _).
  eauto.
Qed.


Lemma holds_single m u :
  holds m [u] -> set_next_unit u null = u ->
  m = mk_memory {[1%N := u]} 2 [New 1%N].
Proof.
  destruct m as [c b l]. intros (Hc & Hb & Hl) Hu. simpl in *. subst.
  f_equal. apply map_eq. intros p. rewrite Hc. unfold layout.
  destruct (decide (p = 1%N)) as [->|Hp].
  - rewrite lookup_singleton_eq. simpl. now rewrite Hu.
  - rewrite lookup_singleton_ne by congruence.
    destruct (N.to_nat p) as [|[|i]] eqn:E; try reflexivity. lia.
Qed.

Lemma layout_outside us p : p ∉ addresses (length us) -> layout us p = None.
Proof.
  intros Hp. unfold layout. destruct (N.to_nat p) as [|i] eqn:E; [reflexivity|].
  destruct (decide (i < length us)%nat) as [Hi|Hi].
  - exfalso. apply Hp. unfold addresses. apply list_elem_of_fmap.
    exists (S i). split; [lia|]. apply elem_of_seq. lia.
  - rewrite (proj2 (lookup_ge_None us i)) by lia. reflexivity.
Qed.

(** Destroying the list the constructor built leaves no node. *)
Lemma destroy_holds m us :
  holds m us ->
  exists m', destroy m (root_of (length us)) = Returns m' /\ cells m' = ∅.
Proof.
  intros Hm. pose proof (holds_chain m us Hm) as Hc.
  pose proof (chain_length _ _ _ Hc) as Hlen.
  unfold destroy. rewrite (destroy_loop_chain _ _ _ _ Hc) by lia.
  eexists. split; [reflexivity|]. simpl. apply map_eq. intros p.
  rewrite lookup_empty.
  destruct (decide (p ∈ addresses (length us))) as [Hin|Hout].
  - now apply destroy_cells_inside.
  - rewrite destroy_cells_outside by exact Hout.
    destruct Hm as (Hl & _). rewrite Hl. now apply layout_outside.
Qed.

(** On a chain the two traversals return and keep the chain. *)
Lemma write_list_chain {real domain : Type}
    (write_unit : Z -> real -> domain -> outputunit -> outputunit)
    m root ps tstep dt d :
  (forall t e x u, get_next_unit (write_unit t e x u) = get_next_unit u) ->
  chain (cells m) root ps ->
  write_list real domain write_unit m root tstep dt d
  = Returns (visit_result (write_unit tstep dt d) WriteUnit m ps).
Proof.
  intros Hw Hc. pose proof (chain_length _ _ _ Hc) as Hlen.
  unfold write_list. rewrite write_loop_visit.
  apply visit_loop_chain; [intros u; apply Hw | exact Hc | lia].
Qed.

Lemma close_list_chain m root ps :
  chain (cells m) root ps ->
  close_list m root = Returns (visit_result close_file CloseFile m ps).
Proof.
  intros Hc. pose proof (chain_length _ _ _ Hc) as Hlen.
  unfold close_list. rewrite close_loop_visit.
  apply visit_loop_chain; [reflexivity | exact Hc | lia].
Qed.

Lemma destroy_chain m root ps :
  chain (cells m) root ps -> destroy m root = Returns (destroy_result m ps).
Proof.
  intros Hc. pose proof (chain_length _ _ _ Hc) as Hlen.
  unfold destroy. apply destroy_loop_chain; [exact Hc | lia].
Qed.

(** ** The constructor on any file

    Whatever the text, the constructor ends: it aborts, or it returns a
    list. *)

Lemma skipws_length s : (String.length (skipws s) <= String.length s)%nat.
Proof.
  induction s as [|c s IH]; simpl; [lia|].
  destruct (isspace c); simpl; lia.
Qed.

Lemma read_word_length s :
  (String.length (snd (read_word s)) <= String.length s)%nat.
Proof.
  induction s as [|c s IH]; simpl; [lia|].
  destruct (isspace c); simpl; [lia|].
  destruct (read_word s) as [w k]. simpl in *. lia.
Qed.

Lemma read_digits_length s :
  forall acc seen,
    (String.length (snd (read_digits s acc seen)) <= String.length s)%nat.
Proof.
  induction s as [|c s IH]; intros acc seen; simpl; [lia|].
  destruct (isdigit c); simpl; [|lia].
  specialize (IH (10 * acc + digit_val c) true). lia.
Qed.

Lemma read_sign_length s :
  (String.length (snd (read_sign s)) <= String.length s)%nat.
Proof.
  destruct s as [|c s]; simpl; [lia|].
  destruct (Ascii.eqb c "-"); simpl; [lia|].
  destruct (Ascii.eqb c "+"); simpl; lia.
Qed.

Lemma sentry_length s :
  (String.length (buf (fst (sentry s))) <= String.length (buf s))%nat.
Proof.
  unfold sentry. destruct (good s); simpl; [|lia].
  pose proof (skipws_length (buf s)) as H.
  destruct (skipws (buf s)); simpl in *; lia.
Qed.

Lemma extract_string_length s old :
  (String.length (buf (fst (extract_string s old))) <= String.length (buf s))%nat.
Proof.
  unfold extract_string. pose proof (sentry_length s) as H.
  destruct (sentry s) as [s1 ok]. simpl in H. destruct ok; simpl; [|lia].
  pose proof (read_word_length (buf s1)) as Hw.
  destruct (read_word (buf s1)) as [w r]. simpl in *. lia.
Qed.

Lemma extract_int_length s old :
  (String.length (buf (fst (extract_int s old))) <= String.length (buf s))%nat.
Proof.
  unfold extract_int. pose proof (sentry_length s) as H.
  destruct (sentry s) as [s1 ok]. simpl in H. destruct ok; simpl; [|lia].
  pose proof (read_sign_length (buf s1)) as Hs.
  destruct (read_sign (buf s1)) as [neg b]. simpl in Hs.
  pose proof (read_digits_length b 0 false) as Hd.
  destruct (read_digits b 0 false) as [[n seen] r]. simpl in Hd.
  destruct (negb seen); simpl; [lia|].
  destruct (_ <? INT_MIN); simpl; [lia|].
  destruct (INT_MAX <? _); simpl; lia.
Qed.

Lemma read_xyz_length st i :
  (String.length (buf (fst (read_xyz st i))) <= String.length (buf (fst st)))%nat.
Proof.
  destruct st as [s w]. unfold read_xyz.
  pose proof (extract_int_length s (xm w !!! i)) as H1.
  destruct (extract_int s (xm w !!! i)) as [s1 a1].
  pose proof (extract_int_length s1 (xp (set_xm w i a1) !!! i)) as H2.
  destruct (extract_int s1 _) as [s2 a2].
  pose proof (extract_int_length s2 (xs (set_xp (set_xm w i a1) i a2) !!! i)) as H3.
  destruct (extract_int s2 _) as [s3 a3]. simpl in *. lia.
Qed.

Lemma read_item_length s field w :
  (String.length (buf (fst (fst (read_item s field w)))) <= String.length (buf s))%nat.
Proof.
  unfold read_item.
  pose proof (extract_string_length s field) as H0.
  destruct (extract_string s field) as [s0 f0].
  pose proof (extract_int_length s0 (tm w)) as H1.
  destruct (extract_int s0 (tm w)) as [s1 a1].
  pose proof (extract_int_length s1 (tp (set_tm w a1))) as H2.
  destruct (extract_int s1 _) as [s2 a2].
  pose proof (extract_int_length s2 (ts (set_tp (set_tm w a1) a2))) as H3.
  destruct (extract_int s2 _) as [s3 a3].
  cbn [fold_left].
  pose proof (read_xyz_length (s3, set_ts (set_tp (set_tm w a1) a2) a3) 0) as H4.
  destruct (read_xyz _ 0%nat) as [s4 w4].
  pose proof (read_xyz_length (s4, w4) 1) as H5.
  destruct (read_xyz _ 1%nat) as [s5 w5].
  pose proof (read_xyz_length (s5, w5) 2) as H6.
  destruct (read_xyz _ 2%nat) as [s6 w6]. simpl in *. lia.
Qed.

Lemma getline_length s line :
  (String.length (buf (fst (getline s line))) <= String.length (buf s))%nat /\
  (fail (fst (getline s line)) = false ->
   (String.length (buf (fst (getline s line))) < String.length (buf s))%nat).
Proof.
  unfold getline. destruct (good s); simpl; [|split; [lia | discriminate]].
  pose proof (read_line_lines (buf s)) as H.
  destruct (read_line (buf s)) as [l [r|]]; simpl.
  - destruct H as [_ H]. split; lia.
  - destruct H as [_ <-]. split; [lia|]. destruct l; simpl; [discriminate | lia].
Qed.

Lemma scan_returns fuel :
  forall s line,
    (String.length (buf s) < fuel)%nat ->
    exists s' line',
      scan fuel s line = Returns (s', line') /\
      (String.length (buf s') <= String.length (buf s))%nat.
Proof.
  induction fuel as [|k IH]; intros s line Hfuel; [lia|].
  cbn [scan]. pose proof (getline_length s line) as [Hle Hlt].
  destruct (getline s line) as [s1 l1]. simpl in Hle, Hlt.
  destruct (fail s1); [eauto|].
  destruct (String.eqb l1 marker); [eauto|].
  specialize (Hlt eq_refl).
  destruct (IH s1 l1) as (s' & line' & Hs & Hlen); [lia|].
  exists s', line'. split; [exact Hs | lia].
Qed.

Lemma win_ok_read_xyz st i : win_ok (snd st) -> win_ok (snd (read_xyz st i)).
Proof.
  destruct st as [s w]. unfold read_xyz.
  destruct (extract_int s _) as [s1 a1].
  destruct (extract_int s1 _) as [s2 a2].
  destruct (extract_int s2 _) as [s3 a3].
  unfold win_ok. simpl. now rewrite !length_insert.
Qed.

Lemma win_ok_read_item s field w :
  win_ok w -> win_ok (snd (read_item s field w)).
Proof.
  intros Hw. unfold read_item.
  destruct (extract_string s field) as [s0 f0].
  destruct (extract_int s0 _) as [s1 a1].
  destruct (extract_int s1 _) as [s2 a2].
  destruct (extract_int s2 _) as [s3 a3].
  cbn [fold_left].
  pose proof (win_ok_read_xyz (s3, set_ts (set_tp (set_tm w a1) a2) a3) 0 Hw) as H4.
  destruct (read_xyz _ 0%nat) as [s4 w4].
  pose proof (win_ok_read_xyz (s4, w4) 1 H4) as H5.
  destruct (read_xyz _ 1%nat) as [s5 w5].
  pose proof (win_ok_read_xyz (s5, w5) 2 H5) as H6.
  destruct (read_xyz _ 2%nat) as [s6 w6]. exact H6.
Qed.

Lemma read_units_returns probname datadir nt fuel :
  forall s line name field w m us cunit nunit,
    (String.length (buf s) < fuel)%nat ->
    holds m us -> (us <> [] -> nunit = N.of_nat (length us)) ->
    exists m' us',
      read_units probname datadir nt fuel s line name field w m
                 (root_of (length us)) cunit nunit
      = Returns (m', root_of (length us'))
      /\ holds m' us'.
Proof.
  induction fuel as [|k IH];
    intros s line name field w m us cunit nunit Hfuel Hm Hn; [lia|].
  cbn [read_units]. pose proof (getline_length s line) as [_ Hlt].
  destruct (getline s line) as [s1 l1]. simpl in Hlt.
  destruct (fail s1); [eauto|]. specialize (Hlt eq_refl).
  destruct (is_empty l1); [eauto|].
  pose proof (read_item_length s1 field w) as Hit.
  destruct (read_item s1 field w) as [[s2 f2] w2]. simpl in Hit.
  pose proof (getline_length s2 l1) as [Hle _].
  destruct (getline s2 l1) as [s3 l3]. simpl in Hle.
  set (u := new_outputunit probname datadir nt (tm w2) (tp w2) (ts w2)
                           (xm w2) (xp w2) (xs w2) f2 l1).
  destruct us as [|u0 us0].
  - destruct (append_first m u Hm eq_refl) as [Hm1 Hc1].
    destruct (new m u) as [m1 c1]. simpl in Hm1, Hc1. subst c1.
    cbn [length root_of]. cbn [N.eqb null].
    apply (IH s3 l3 l1 f2 w2 m1 [u] 1%N 1%N); [lia | exact Hm1 | reflexivity].
  - pose proof (append_next m (u0 :: us0) u Hm ltac:(discriminate) eq_refl) as Ha.
    rewrite (Hn ltac:(discriminate)). cbv zeta in Ha.
    destruct (new m u) as [m1 c1]. destruct Ha as (m3 & Hcall & Hc1 & Hm3).
    cbn [length root_of]. change (1 =? null)%N with false. cbv iota.
    simpl length in *.
    destruct (call_set_next_unit m1 (N.of_nat (S (length us0))) c1)
      as [m2| | |] eqn:E2; try discriminate.
    simpl in Hcall. cbn [mbind run_bind]. rewrite Hcall. cbv beta iota.
    pose proof (IH s3 l3 l1 f2 w2 m3 ((u0 :: us0) ++ [u]) c1 c1) as IH'.
    rewrite length_app in IH'. simpl in IH'.
    replace (length us0 + 1)%nat with (S (length us0)) in IH' by lia.
    apply IH'; [lia | exact Hm3|].
    intros _. rewrite Hc1. reflexivity.
Qed.

(** Every call of the constructor aborts or returns a list. *)
Lemma outputlist_returns probname datadir nt garbage file :
  (exists e c,
     outputlist probname datadir nt garbage file = MPI_Abort e MPI_COMM_WORLD c) \/
  (exists m us,
     outputlist probname datadir nt garbage file
     = Returns (m, root_of (length us))
     /\ lists m (root_of (length us)) us).
Proof.
  destruct file as [text|]; [|left; eauto].
  unfold outputlist.
  destruct (scan_returns (S (String.length text)) (open text) EmptyString)
    as (s' & line' & Hs & Hlen); [simpl; lia|].
  rewrite Hs. cbn [mbind run_bind]. simpl in Hlen.
  destruct (eof s'); [left; eauto|]. right.
  destruct (read_units_returns probname datadir nt (S (String.length text))
              s' line' EmptyString EmptyString (uninitialised garbage)
              empty_memory [] null null) as (m' & us' & Hr & Hm').
  { lia. } { exact holds_empty. } { congruence. }
  exists m', us'. split; [exact Hr | now apply holds_lists].
Qed.

(** The marker as the last line of the file, without a newline: reading
    it raises [eofbit], and the constructor takes the file for one
    without the marker. *)
Example marker_without_newline :
  outputlist "demo" "data/" 100 no_garbage (Some marker)
  = MPI_Abort ("Error reading outputlist from input file" +:+ endl)
              MPI_COMM_WORLD (-1).
Proof. reflexivity. Qed.

(** The file ends within the first declaration: the unit is made of
    what was read and of what the uninitialised locals held. *)
Example eof_within_first_declaration :
  outputlist "demo" "data/" 100 (fun i => Z.of_nat i + 100)
    (Some (marker +:+ endl +:+ "vxbody" +:+ endl +:+ "vx 0 10"))
  = Returns
      (mk_memory
         {[ 1%N := mk_outputunit "demo" "data/" 100
                     (mk_window 0 10 102 [103; 104; 105] [106; 107; 108]
                                [109; 110; 111])
                     "vx" "vxbody" null false ]}
         2 [New 1%N],
       1%N).
Proof. vm_compute. reflexivity. Qed.

(** * The claims *)

(** C5. When the input file cannot be opened, the constructor writes
    "Error opening input file in outputlist.cpp" to standard error and
    calls [MPI_Abort] on [MPI_COMM_WORLD], which ends the whole
    computation; no list is returned. *)
Theorem unopenable_input_aborts probname datadir nt garbage :
  outputlist probname datadir nt garbage None
  = MPI_Abort ("Error opening input file in outputlist.cpp" +:+ endl)
              MPI_COMM_WORLD (-1).
Proof. reflexivity. Qed.

(** C3. When the file opens but none of its lines is the marker
    "[fdfault.outputlist]", the constructor writes "Error reading
    outputlist from input file" to standard error and calls
    [MPI_Abort]; it does not return a list. *)
Theorem missing_marker_aborts probname datadir nt garbage text :
  marker ∉ lines text ->
  outputlist probname datadir nt garbage (Some text)
  = MPI_Abort ("Error reading outputlist from input file" +:+ endl)
              MPI_COMM_WORLD (-1).
Proof.
  intros Hm. unfold outputlist, open.
  destruct (scan_no_marker (S (String.length text)) text EmptyString Hm)
    as (s' & line' & Hs & He); [lia|].
  rewrite Hs. cbn [mbind run_bind]. unfold eof. now rewrite He.
Qed.

Lemma missing_marker_aborts_witness :
  (marker ∉ lines ("[fdfault.problem]" +:+ endl +:+ "vxbody" +:+ endl)) /\
  outputlist "demo" "data/" 100 no_garbage
    (Some ("[fdfault.problem]" +:+ endl +:+ "vxbody" +:+ endl))
  = MPI_Abort ("Error reading outputlist from input file" +:+ endl)
              MPI_COMM_WORLD (-1).
Proof.
  assert (H : marker ∉ lines ("[fdfault.problem]" +:+ endl +:+ "vxbody" +:+ endl)).
  { apply (bool_decide_unpack _). vm_compute. exact I. }
  split; [exact H|].
  exact (missing_marker_aborts "demo" "data/" 100 no_garbage _ H).
Defined.



(** C6. For a file with the marker line, one declaration (a name line,
    then the field and the twelve integers) and a blank line, the
    constructor returns a list of one node: the root is the only node,
    it has no successor, and it carries the declared name, field and
    window. What follows the blank line has no influence. *)
Theorem single_declaration probname datadir nt garbage pre it rest :
  wf_pre pre = true -> wf_item it = true ->
  outputlist probname datadir nt garbage
    (Some (render_file pre [it] (endl +:+ rest)))
  = Returns (mk_memory {[ 1%N := item_unit probname datadir nt it ]} 2 [New 1%N],
             1%N)
  /\ u_name (item_unit probname datadir nt it) = i_name it
  /\ u_field (item_unit probname datadir nt it) = snd (i_field it)
  /\ u_window (item_unit probname datadir nt it) = item_window it
  /\ get_next_unit (item_unit probname datadir nt it) = null.
Proof.
  intros Hpre Hit. split; [|repeat split].
  destruct (outputlist_wf probname datadir nt garbage pre [it] (endl +:+ rest))
    as (m & Hr & Hm).
  { unfold wf_file. simpl. now rewrite Hpre, Hit. }
  apply holds_single in Hm; [|reflexivity]. now subst m.
Qed.

Lemma single_declaration_witness :
  wf_pre demo_pre = true /\ wf_item demo_item = true /\
  outputlist "demo" "data/" 100 no_garbage
    (Some (render_file demo_pre [demo_item] (endl +:+ "not a declaration" +:+ endl)))
  = Returns (mk_memory {[ 1%N := demo_unit "vxbody" 0 false ]} 2 [New 1%N], 1%N).
Proof.
  split; [reflexivity|]. split; [reflexivity|].
  exact (proj1 (single_declaration "demo" "data/" 100 no_garbage demo_pre
                  demo_item ("not a declaration" +:+ endl) eq_refl eq_refl)).
Defined.

(** C4, as the code has it. Once the marker line has been read, the end
    of the file in place of the blank line ends the section as the
    blank line does: the constructor returns the list of the units
    declared before it, in the order of their declarations. *)
Theorem eof_ends_section probname datadir nt garbage pre its :
  wf_pre pre = true -> forallb wf_item its = true ->
  exists m,
    outputlist probname datadir nt garbage (Some (render_file pre its EmptyString))
    = Returns (m, root_of (length its))
    /\ lists m (root_of (length its)) (map (item_unit probname datadir nt) its).
Proof.
  intros Hpre Hits.
  destruct (outputlist_wf probname datadir nt garbage pre its EmptyString)
    as (m & Hr & Hm).
  { unfold wf_file. now rewrite Hpre, Hits. }
  exists m. split; [exact Hr|].
  apply holds_lists in Hm. now rewrite length_map in Hm.
Qed.

Lemma eof_ends_section_witness :
  wf_pre demo_pre = true /\ forallb wf_item [demo_item; demo_item2] = true /\
  exists m,
    outputlist "demo" "data/" 100 no_garbage
      (Some (render_file demo_pre [demo_item; demo_item2] EmptyString))
    = Returns (m, 1%N)
    /\ lists m 1%N (map (item_unit "demo" "data/" 100) [demo_item; demo_item2]).
Proof.
  split; [reflexivity|]. split; [reflexivity|].
  exact (eof_ends_section "demo" "data/" 100 no_garbage demo_pre
           [demo_item; demo_item2] eq_refl eq_refl).
Defined.

(** C4, as stated, fails. After the marker line and one full
    declaration the file ends within the second one, after the name
    line "fault slip" and the tokens "U 5 95": the constructor does not
    abort. It returns a list of two units, the second with the field,
    window start and window stop that were read and, for the rest, the
    values left over from the first declaration. *)
Lemma premature_eof_not_fatal :
  outputlist "demo" "data/" 100 no_garbage
    (Some (render_file [] [demo_item] ("fault slip" +:+ endl +:+ "U 5 95")))
  = Returns
      (mk_memory
         {[ 1%N := demo_unit "vxbody" 2 false;
            2%N := mk_outputunit "demo" "data/" 100
                     (mk_window 5 95 2 [0; 3; -1] [5; 7; 4] [1; 2; 1])
                     "U" "fault slip" null false ]}
         3 [New 1%N; New 2%N; SetNext 1%N 2%N; GetNext 1%N],
       1%N).
Proof. vm_compute. reflexivity. Qed.

(** C2. For a well-formed file the constructor returns the list of the
    declared units in the order of their declarations, one node for
    each declaration; the only events of the construction are, for each
    declaration in turn, the allocation of its node and the linking of
    the old tail to it. Later [write_list] and [close_list] keep the
    nodes and their order, and the destructor removes them all. *)
Theorem construction_appends_in_declaration_order
    probname datadir nt garbage pre its post :
  wf_file pre its post = true ->
  exists m,
    outputlist probname datadir nt garbage (Some (render_file pre its post))
    = Returns (m, root_of (length its))
    /\ lists m (root_of (length its)) (map (item_unit probname datadir nt) its)
    /\ log m = construction_log (length its)
    /\ (forall (real domain : Type)
               (write_unit : Z -> real -> domain -> outputunit -> outputunit)
               tstep dt d,
          (forall t e x u, get_next_unit (write_unit t e x u) = get_next_unit u) ->
          exists m',
            write_list real domain write_unit m (root_of (length its)) tstep dt d
            = Returns m'
            /\ chain (cells m') (root_of (length its)) (addresses (length its)))
    /\ (exists m',
          close_list m (root_of (length its)) = Returns m'
          /\ chain (cells m') (root_of (length its)) (addresses (length its)))
    /\ (exists m',
          destroy m (root_of (length its)) = Returns m' /\ cells m' = ∅).
Proof.
  intros Hwf.
  destruct (outputlist_wf probname datadir nt garbage pre its post Hwf)
    as (m & Hr & Hm).
  pose proof (holds_lists _ _ Hm) as Hl.
  pose proof (destroy_holds _ _ Hm) as Hd.
  pose proof Hm as (_ & _ & Hlog).
  rewrite length_map in Hl, Hd, Hlog. pose proof Hl as [Hc _].
  rewrite length_map in Hc.
  exists m. split; [exact Hr|]. split; [exact Hl|]. split; [exact Hlog|].
  split; [|split; [|exact Hd]].
  - intros real domain write_unit tstep dt d Hw.
    rewrite (write_list_chain write_unit m _ _ tstep dt d Hw Hc).
    eexists. split; [reflexivity|]. simpl.
    apply visit_chain; [intros u; apply Hw | exact Hc].
  - rewrite (close_list_chain m _ _ Hc).
    eexists. split; [reflexivity|]. simpl.
    apply visit_chain; [reflexivity | exact Hc].
Qed.

Lemma construction_appends_in_declaration_order_witness :
  wf_file demo_pre [demo_item; demo_item2] (endl +:+ "[fdfault.frontlist]") = true /\
  exists m,
    outputlist "demo" "data/" 100 no_garbage
      (Some (render_file demo_pre [demo_item; demo_item2]
               (endl +:+ "[fdfault.frontlist]")))
    = Returns (m, 1%N)
    /\ lists m 1%N (map (item_unit "demo" "data/" 100) [demo_item; demo_item2])
    /\ log m = [New 1%N; New 2%N; SetNext 1%N 2%N; GetNext 1%N].
Proof.
  split; [reflexivity|].
  destruct (construction_appends_in_declaration_order "demo" "data/" 100
              no_garbage demo_pre [demo_item; demo_item2]
              (endl +:+ "[fdfault.frontlist]") eq_refl)
    as (m & Hr & Hl & Hlog & _).
  exists m. split; [exact Hr|]. split; [exact Hl | exact Hlog].
Defined.

(** C7. On a list (a chain of live nodes from the root to null)
    [write_list] returns after one [write_unit(tstep, dt, d)] on each
    node, in list order: every node of the list holds the result of
    that call, the other nodes are untouched, nothing is allocated or
    freed and the chain is as before. [close_list] does the same with
    [close_file]. The link of a unit is taken to be out of the reach of
    [write_unit]. *)
Theorem traversals_call_each_unit_once (real domain : Type)
    (write_unit : Z -> real -> domain -> outputunit -> outputunit)
    m root ps tstep dt d :
  chain (cells m) root ps ->
  (forall t e x u, get_next_unit (write_unit t e x u) = get_next_unit u) ->
  NoDup ps
  /\ (exists m',
        write_list real domain write_unit m root tstep dt d = Returns m'
        /\ log m' = log m ++ visit_events WriteUnit ps
        /\ written (visit_events WriteUnit ps) = ps
        /\ (forall p, p ∈ ps -> cells m' !! p = write_unit tstep dt d <$> cells m !! p)
        /\ (forall p, p ∉ ps -> cells m' !! p = cells m !! p)
        /\ brk m' = brk m
        /\ chain (cells m') root ps)
  /\ (exists m',
        close_list m root = Returns m'
        /\ log m' = log m ++ visit_events CloseFile ps
        /\ closed (visit_events CloseFile ps) = ps
        /\ (forall p, p ∈ ps -> cells m' !! p = close_file <$> cells m !! p)
        /\ (forall p, p ∉ ps -> cells m' !! p = cells m !! p)
        /\ brk m' = brk m
        /\ chain (cells m') root ps).
Proof.
  intros Hc Hw. pose proof (chain_NoDup _ _ _ Hc) as Hnd.
  split; [exact Hnd|]. split.
  - rewrite (write_list_chain write_unit m root ps tstep dt d Hw Hc).
    eexists. split; [reflexivity|]. simpl.
    split; [reflexivity|]. split; [apply written_visit|].
    split; [intros p Hp; now apply visit_cells_inside|].
    split; [intros p Hp; now apply visit_cells_outside|].
    split; [reflexivity|].
    apply visit_chain; [intros u; apply Hw | exact Hc].
  - rewrite (close_list_chain m root ps Hc).
    eexists. split; [reflexivity|]. simpl.
    split; [reflexivity|]. split; [apply closed_visit|].
    split; [intros p Hp; now apply visit_cells_inside|].
    split; [intros p Hp; now apply visit_cells_outside|].
    split; [reflexivity|].
    apply visit_chain; [reflexivity | exact Hc].
Qed.

Lemma demo_chain : chain (cells demo_memory) 1%N [1%N; 2%N].
Proof.
  simpl. split; [reflexivity|]. split; [discriminate|].
  eexists. split; [vm_compute; reflexivity|].
  simpl. split; [reflexivity|]. split; [discriminate|].
  eexists. split; [vm_compute; reflexivity|]. reflexivity.
Qed.

Lemma traversals_call_each_unit_once_witness :
  chain (cells demo_memory) 1%N [1%N; 2%N] /\
  (forall (t : Z) (e : Q) (x : unit) u,
     get_next_unit (demo_write_unit t e x u) = get_next_unit u) /\
  exists m',
    write_list Q unit demo_write_unit demo_memory 1%N 5 (1 # 2)%Q tt = Returns m'
    /\ log m' = log demo_memory ++ [WriteUnit 1%N; GetNext 1%N;
                                    WriteUnit 2%N; GetNext 2%N]
    /\ chain (cells m') 1%N [1%N; 2%N].
Proof.
  split; [exact demo_chain|]. split; [reflexivity|].
  destruct (traversals_call_each_unit_once Q unit demo_write_unit demo_memory
              1%N [1%N; 2%N] 5 (1 # 2)%Q tt demo_chain (fun _ _ _ _ => eq_refl))
    as (_ & (m' & Hr & Hlog & _ & _ & _ & _ & Hc) & _).
  exists m'. split; [exact Hr|]. split; [exact Hlog | exact Hc].
Defined.

Lemma destroy_events_closed (c : gmap N outputunit) ps :
  (forall p, p ∈ ps -> exists u, c !! p = Some u /\ u_open u = false) ->
  destroy_events c ps = flat_map (fun p => [GetNext p; Delete p]) ps.
Proof.
  induction ps as [|a ps IH]; intros H; [reflexivity|].
  unfold destroy_events in *. simpl.
  destruct (H a) as (u & -> & ->); [left|].
  simpl. rewrite IH; [reflexivity|]. intros p Hp. apply H. now right.
Qed.

(** C1. On a list the destructor returns after it has, for each node
    in list order and exactly once, read the link of the node and then
    deleted the node; deleting a unit releases the file it still has
    open before the node is given back; no node is touched after its
    deletion, and none of the nodes of the list is left. When
    [close_list] runs first, every file is closed by [close_file]
    before the first node is deleted. *)
Theorem teardown_visits_each_node_once m root ps :
  chain (cells m) root ps ->
  NoDup ps
  /\ (exists m',
        destroy m root = Returns m'
        /\ log m' = log m ++ destroy_events (cells m) ps
        /\ stepped (destroy_events (cells m) ps) = ps
        /\ deleted (destroy_events (cells m) ps) = ps
        /\ no_use_after_delete (destroy_events (cells m) ps)
        /\ (forall p u, p ∈ ps -> cells m !! p = Some u -> u_open u = true ->
             released_before_delete (destroy_events (cells m) ps) p)
        /\ (forall p, p ∈ ps -> cells m' !! p = None)
        /\ (forall p, p ∉ ps -> cells m' !! p = cells m !! p))
  /\ (exists m1 m2,
        close_list m root = Returns m1 /\ destroy m1 root = Returns m2
        /\ log m2 = log m ++ visit_events CloseFile ps
                          ++ flat_map (fun p => [GetNext p; Delete p]) ps).
Proof.
  intros Hc. pose proof (chain_NoDup _ _ _ Hc) as Hnd.
  split; [exact Hnd|]. split.
  - rewrite (destroy_chain m root ps Hc).
    eexists. split; [reflexivity|]. simpl.
    split; [reflexivity|]. split; [apply stepped_destroy|].
    split; [apply deleted_destroy|].
    split; [now apply no_use_after_delete_destroy|].
    split; [intros p u Hp Hu Ho; now apply (released_before_delete_destroy _ _ p u)|].
    split; [intros p Hp; now apply destroy_cells_inside|].
    intros p Hp. now apply destroy_cells_outside.
  - assert (Hc1 : chain (cells (visit_result close_file CloseFile m ps)) root ps).
    { simpl. apply visit_chain; [reflexivity | exact Hc]. }
    exists (visit_result close_file CloseFile m ps),
           (destroy_result (visit_result close_file CloseFile m ps) ps).
    split; [exact (close_list_chain m root ps Hc)|].
    split; [exact (destroy_chain _ root ps Hc1)|].
    simpl. rewrite <- app_assoc. do 2 f_equal.
    apply destroy_events_closed. intros p Hp.
    rewrite visit_cells_inside by assumption.
    destruct (chain_live _ _ _ p Hc Hp) as [u ->].
    exists (close_file u). split; reflexivity.
Qed.

Lemma teardown_visits_each_node_once_witness :
  chain (cells demo_memory) 1%N [1%N; 2%N] /\
  exists m',
    destroy demo_memory 1%N = Returns m'
    /\ log m' = log demo_memory ++ [GetNext 1%N; ReleaseFile 1%N; Delete 1%N;
                                    GetNext 2%N; Delete 2%N]
    /\ no_use_after_delete [GetNext 1%N; ReleaseFile 1%N; Delete 1%N;
                            GetNext 2%N; Delete 2%N].
Proof.
  split; [exact demo_chain|].
  destruct (teardown_visits_each_node_once demo_memory 1%N [1%N; 2%N] demo_chain)
    as (_ & (m' & Hr & Hlog & _ & _ & Hsafe & _) & _).
  exists m'. split; [exact Hr|]. split; [exact Hlog | exact Hsafe].
Defined.

(** ** The friction solve *)

(** C9. With zero or negative effective normal stress the strength the
    solve uses is zero whatever the friction law gives, the returned
    shear traction is zero and the slip velocity is [phi / eta]; the
    result does not depend on the law or on the root-find, which is not
    run. *)
Theorem loss_of_contact_forces_zero_strength law root_find phi eta snc i j t :
  (snc <= 0)%Q ->
  friction.strength law snc i j t = 0%Q
  /\ friction.solve_fs law root_find phi eta snc i j t
     = friction.mk_boundchar (phi / eta) 0
  /\ (forall law' root_find',
        friction.solve_fs law' root_find' phi eta snc i j t
        = friction.solve_fs law root_find phi eta snc i j t).
Proof.
  intros H. apply Qle_bool_iff in H.
  unfold friction.strength, friction.solve_fs. rewrite H.
  repeat split.
Qed.

Lemma loss_of_contact_forces_zero_strength_witness :
  (- (3) <= 0)%Q /\
  friction.strength (friction.coulomb (6 # 10)) (- (3)) 0 0 0 = 0%Q /\
  friction.solve_fs (friction.coulomb (6 # 10)) friction.closed_form
                    8 2 (- (3)) 0 0 0
  = friction.mk_boundchar (8 / 2) 0.
Proof.
  assert (H : (- (3) <= 0)%Q) by (vm_compute; discriminate).
  split; [exact H|].
  destruct (loss_of_contact_forces_zero_strength (friction.coulomb (6 # 10))
              friction.closed_form 8 2 (- (3)) 0 0 0 H) as (Hs & Hr & _).
  split; [exact Hs | exact Hr].
Defined.

(** * Further properties of the constructor and of the life of a list *)

(** ** Reading, once more *)

Lemma starts_space_loose tl r :
  wf_tail tl = true -> starts_space (tl +:+ endl +:+ r) = true.
Proof.
  unfold wf_tail. intros H. apply andb_prop in H as [_ H].
  destruct tl as [|c tl]; [reflexivity|]. exact H.
Qed.

Ltac starts_loose :=
  first [ apply starts_space_gap; assumption
        | apply starts_space_loose; assumption ].

Lemma read_item_loose it rest field w :
  wf_item_loose it = true -> win_ok w ->
  read_item (mk_istream (render_spaced (i_field it :: i_ints it)
                           (i_tail it +:+ endl +:+ rest)) false false) field w
  = (mk_istream (i_tail it +:+ endl +:+ rest) false false,
     snd (i_field it), item_window it).
Proof.
  destruct it as [nm [fws fw] ints tl]. unfold wf_item_loose. simpl.
  intros H (Hm & Hp & Hs).
  apply andb_prop in H as [H Htl]. split_andb.
  match goal with H : (length ints =? 12)%nat = true |- _ =>
    apply Nat.eqb_eq in H end.
  do 12 (destruct ints as [|[? ?] ints]; [discriminate|]).
  destruct ints; [|discriminate].
  simpl in *. split_andb. simpl in *.
  match goal with H : negb (is_empty fw) = true |- _ =>
    apply negb_true_iff in H end.
  destruct w as [a b c wm wp ws]. simpl in *.
  destruct wm as [|? [|? [|? [|]]]]; try discriminate.
  destruct wp as [|? [|? [|? [|]]]]; try discriminate.
  destruct ws as [|? [|? [|? [|]]]]; try discriminate.
  unfold read_item.
  rewrite extract_string_word by (assumption || starts_loose).
  repeat (rewrite extract_int_lit by (assumption || starts_loose); simpl).
  reflexivity.
Qed.

Section Prefix.

Variables (probname datadir : string) (nt : Z).

Local Abbreviation unit_of := (item_unit probname datadir nt).

(** Reading well-formed declarations takes one turn of the loop each
    and leaves the loop in front of what follows them, with the locals
    of the last declaration. *)
Lemma read_units_prefix its :
  forall k rest line name field w m us cunit nunit,
    forallb wf_item_loose its = true -> win_ok w ->
    holds m us -> (us <> [] -> nunit = N.of_nat (length us)) ->
    exists m' line' cunit' nunit',
      read_units probname datadir nt (length its + k)
        (mk_istream (render_items its rest) false false)
        line name field w m (root_of (length us)) cunit nunit
      = (let '(name', field', w') := locals_after its (name, field, w) in
         read_units probname datadir nt k (mk_istream rest false false)
           line' name' field' w' m' (root_of (length us + length its))
           cunit' nunit')
      /\ holds m' (us ++ map unit_of its)
      /\ (us ++ map unit_of its <> [] ->
          nunit' = N.of_nat (length us + length its))
      /\ win_ok (snd (locals_after its (name, field, w))).
Proof.
  induction its as [|it its IH];
    intros k rest line name field w m us cunit nunit Hits Hw Hm Hn.
  - exists m, line, cunit, nunit. simpl.
    rewrite Nat.add_0_r, app_nil_r.
    split; [reflexivity|]. split; [exact Hm|]. split; [exact Hn | exact Hw].
  - simpl in Hits. apply andb_prop in Hits as [Hit Hits].
    pose proof Hit as Hit'. unfold wf_item_loose in Hit'.
    apply andb_prop in Hit' as [Hit' Htl]. split_andb.
    match goal with H : negb (is_empty (i_name it)) = true |- _ =>
      apply negb_true_iff in H; rename H into Hname end.
    assert (Htl' : string_forall not_nl (i_tail it) = true).
    { unfold wf_tail in Htl. now apply andb_prop in Htl as [Htl _]. }
    simpl render_items. unfold render_item at 1.
    cbn [length Nat.add read_units]. rewrite getline_line by assumption.
    cbn [fail failbit]. rewrite Hname.
    rewrite (read_item_loose it _ _ _ Hit Hw).
    rewrite getline_line by assumption.
    fold (unit_of it). cbn [locals_after fold_left].
    fold (locals_after its (i_name it, snd (i_field it), item_window it)).
    destruct us as [|u0 us0].
    + destruct (append_first m (unit_of it) Hm eq_refl) as [Hm1 Hc1].
      destruct (new m (unit_of it)) as [m1 c1] eqn:En. simpl in Hm1, Hc1.
      subst c1. cbn [length root_of]. cbn [N.eqb null].
      destruct (IH k rest (i_tail it) (i_name it) (snd (i_field it))
                  (item_window it) m1 [unit_of it] 1%N 1%N Hits
                  (win_ok_item it) Hm1 ltac:(reflexivity))
        as (m' & line' & c' & n' & Hr & Hm' & Hn' & Hw').
      exists m', line', c', n'. simpl in Hr, Hm', Hn'. simpl.
      split; [exact Hr|]. split; [exact Hm'|]. split; [exact Hn' | exact Hw'].
    + pose proof (append_next m (u0 :: us0) (unit_of it) Hm ltac:(discriminate)
                    eq_refl) as Ha.
      rewrite (Hn ltac:(discriminate)). cbv zeta in Ha.
      destruct (new m (unit_of it)) as [m1 c1] eqn:En.
      destruct Ha as (m3 & Hcall & Hc1 & Hm3).
      cbn [length root_of]. change (1 =? null)%N with false. cbv iota.
      simpl length in *.
      destruct (call_set_next_unit m1 (N.of_nat (S (length us0))) c1)
        as [m2| | |] eqn:E2; try discriminate.
      simpl in Hcall. cbn [mbind run_bind]. rewrite Hcall. cbv beta iota.
      destruct (IH k rest (i_tail it) (i_name it) (snd (i_field it))
                  (item_window it) m3 ((u0 :: us0) ++ [unit_of it]) c1 c1
                  Hits (win_ok_item it) Hm3)
        as (m' & line' & c' & n' & Hr & Hm' & Hn' & Hw').
      { intros _. rewrite Hc1, length_app. simpl. f_equal. lia. }
      exists m', line', c', n'.
      rewrite <- app_assoc in Hm', Hn'. rewrite length_app in Hr, Hn'.
      simpl in Hr, Hm', Hn'.
      replace (S (length us0 + 1) + length its)%nat
        with (S (length us0) + S (length its))%nat in Hr, Hn' by lia.
      simpl in Hr, Hn'. simpl.
      split; [exact Hr|]. split; [exact Hm'|]. split; [|exact Hw'].
      intros Hne. rewrite (Hn' Hne). f_equal. lia.
Qed.

End Prefix.

(** ** What every constructed list looks like *)

Lemma outputlist_cases probname datadir nt garbage file :
  outputlist probname datadir nt garbage file
  = MPI_Abort ("Error opening input file in outputlist.cpp" +:+ endl)
              MPI_COMM_WORLD (-1)
  \/ outputlist probname datadir nt garbage file
     = MPI_Abort ("Error reading outputlist from input file" +:+ endl)
                 MPI_COMM_WORLD (-1)
  \/ exists m us,
       outputlist probname datadir nt garbage file
       = Returns (m, root_of (length us))
       /\ holds m us.
Proof.
  destruct file as [text|]; [|left; reflexivity]. right.
  unfold outputlist.
  destruct (scan_returns (S (String.length text)) (open text) EmptyString)
    as (s' & line' & Hs & Hlen); [simpl; lia|].
  rewrite Hs. cbn [mbind run_bind]. simpl in Hlen.
  destruct (eof s'); [left; reflexivity|]. right.
  destruct (read_units_returns probname datadir nt (S (String.length text))
              s' line' EmptyString EmptyString (uninitialised garbage)
              empty_memory [] null null) as (m' & us' & Hr & Hm').
  { lia. } { exact holds_empty. } { congruence. }
  exists m', us'. split; [exact Hr | exact Hm'].
Qed.

Lemma outputlist_holds probname datadir nt garbage file m root :
  outputlist probname datadir nt garbage file = Returns (m, root) ->
  exists us, holds m us /\ root = root_of (length us).
Proof.
  intros E.
  destruct (outputlist_cases probname datadir nt garbage file)
    as [H|[H|(m' & us & H & Hm)]]; rewrite H in E; try discriminate.
  injection E as <- <-. eauto.
Qed.

Lemma holds_live m us p :
  holds m us -> (is_Some (cells m !! p) <-> p ∈ addresses (length us)).
Proof.
  intros Hm. split.
  - intros Hp. destruct (decide (p ∈ addresses (length us))) as [Hin|Hout];
      [exact Hin|].
    destruct Hm as (Hl & _). rewrite Hl, (layout_outside us p Hout) in Hp.
    now destruct Hp.
  - intros Hp. exact (chain_live _ _ _ p (holds_chain m us Hm) Hp).
Qed.

Lemma holds_unique m1 m2 us : holds m1 us -> holds m2 us -> m1 = m2.
Proof.
  destruct m1 as [c1 b1 l1], m2 as [c2 b2 l2].
  intros (Hc1 & Hb1 & Hl1) (Hc2 & Hb2 & Hl2). simpl in *. subst.
  f_equal. apply map_eq. intros p. now rewrite Hc1, Hc2.
Qed.

(** X1. Whatever the file holds, the constructor ends in one of three
    ways: the abort for a file that cannot be opened, the abort for a
    missing section, or a list. The list is a chain from the root to
    null through exactly the nodes that were allocated, in the order
    of their allocation: no node is lost, none is linked twice, and
    nothing was freed. *)
Theorem constructor_returns_sound_list probname datadir nt garbage file :
  outputlist probname datadir nt garbage file
  = MPI_Abort ("Error opening input file in outputlist.cpp" +:+ endl)
              MPI_COMM_WORLD (-1)
  \/ outputlist probname datadir nt garbage file
     = MPI_Abort ("Error reading outputlist from input file" +:+ endl)
                 MPI_COMM_WORLD (-1)
  \/ exists m n,
       outputlist probname datadir nt garbage file = Returns (m, root_of n)
       /\ chain (cells m) (root_of n) (addresses n)
       /\ (forall p, is_Some (cells m !! p) <-> p ∈ addresses n)
       /\ brk m = N.of_nat (S n)
       /\ log m = construction_log n.
Proof.
  destruct (outputlist_cases probname datadir nt garbage file)
    as [H|[H|(m & us & H & Hm)]]; [left; exact H | right; left; exact H |].
  right. right. exists m, (length us). split; [exact H|].
  split; [now apply holds_chain|].
  split; [intros p; now apply holds_live|].
  destruct Hm as (_ & Hb & Hl). now split.
Qed.

(** X2. A list the constructor returned can be written, closed and
    destroyed, in that order, without a fault: each step returns, the
    destructor leaves no live node, and the history of the nodes is the
    construction, one [write_unit] per node in list order, one
    [close_file] per node in list order, and one deletion per node in
    list order, with no file left to release. The link of a unit is
    taken to be out of the reach of [write_unit]. *)
Theorem constructed_list_lives_and_dies (real domain : Type)
    (write_unit : Z -> real -> domain -> outputunit -> outputunit)
    probname datadir nt garbage file m root tstep dt d :
  outputlist probname datadir nt garbage file = Returns (m, root) ->
  (forall t e x u, get_next_unit (write_unit t e x u) = get_next_unit u) ->
  exists n m1 m2 m3,
    write_list real domain write_unit m root tstep dt d = Returns m1
    /\ close_list m1 root = Returns m2
    /\ destroy m2 root = Returns m3
    /\ cells m3 = ∅
    /\ log m3 = construction_log n
                ++ visit_events WriteUnit (addresses n)
                ++ visit_events CloseFile (addresses n)
                ++ flat_map (fun p => [GetNext p; Delete p]) (addresses n).
Proof.
  intros E Hw. destruct (outputlist_holds _ _ _ _ _ _ _ E) as (us & Hm & ->).
  pose proof (holds_chain m us Hm) as Hc.
  pose proof (chain_NoDup _ _ _ Hc) as Hnd.
  set (ps := addresses (length us)) in *.
  set (root := root_of (length us)) in *.
  set (m1 := visit_result (write_unit tstep dt d) WriteUnit m ps).
  set (m2 := visit_result close_file CloseFile m1 ps).
  assert (Hc1 : chain (cells m1) root ps).
  { simpl. apply visit_chain; [intros u; apply Hw | exact Hc]. }
  assert (Hc2 : chain (cells m2) root ps).
  { simpl. apply visit_chain; [reflexivity | exact Hc1]. }
  exists (length us), m1, m2, (destroy_result m2 ps).
  split; [exact (write_list_chain write_unit m root ps tstep dt d Hw Hc)|].
  split; [exact (close_list_chain m1 root ps Hc1)|].
  split; [exact (destroy_chain m2 root ps Hc2)|].
  split.
  - simpl. apply map_eq. intros p. rewrite lookup_empty.
    destruct (decide (p ∈ ps)) as [Hin|Hout].
    + now apply destroy_cells_inside.
    + rewrite destroy_cells_outside, !visit_cells_outside by exact Hout.
      destruct Hm as (Hl & _). rewrite Hl. now apply layout_outside.
  - simpl. destruct Hm as (_ & _ & ->). rewrite <- !app_assoc.
    do 3 f_equal. apply destroy_events_closed. intros p Hp.
    rewrite visit_cells_inside by assumption.
    destruct (chain_live _ _ _ p Hc1 Hp) as [u Hu]. simpl in Hu.
    rewrite Hu. exists (close_file u). split; reflexivity.
Qed.

Lemma constructed_list_lives_and_dies_witness :
  outputlist "demo" "data/" 100 no_garbage
    (Some (render_file demo_pre [demo_item] endl))
  = Returns (mk_memory {[ 1%N := demo_unit "vxbody" 0 false ]} 2 [New 1%N], 1%N)
  /\ (forall (t : Z) (e : Q) (x : unit) u,
        get_next_unit (demo_write_unit t e x u) = get_next_unit u)
  /\ exists m1 m2 m3,
       write_list Q unit demo_write_unit
         (mk_memory {[ 1%N := demo_unit "vxbody" 0 false ]} 2 [New 1%N]) 1%N
         5 (1 # 2)%Q tt = Returns m1
       /\ close_list m1 1%N = Returns m2
       /\ destroy m2 1%N = Returns m3
       /\ cells m3 = ∅.
Proof.
  assert (H : outputlist "demo" "data/" 100 no_garbage
                (Some (render_file demo_pre [demo_item] endl))
              = Returns (mk_memory {[ 1%N := demo_unit "vxbody" 0 false ]} 2
                                   [New 1%N], 1%N))
    by (vm_compute; reflexivity).
  split; [exact H|]. split; [reflexivity|].
  destruct (constructed_list_lives_and_dies Q unit demo_write_unit
              "demo" "data/" 100 no_garbage _ _ _ 5 (1 # 2)%Q tt H
              (fun _ _ _ _ => eq_refl))
    as (n & m1 & m2 & m3 & H1 & H2 & H3 & H4 & _).
  exists m1, m2, m3. repeat split; assumption.
Defined.

(** ** The marker line *)

Lemma read_line_plain l :
  string_forall not_nl l = true -> read_line l = (l, None).
Proof.
  induction l as [|c l IH]; simpl; intros H; [reflexivity|].
  apply andb_prop in H as [Hc Hl]. unfold not_nl in Hc.
  apply negb_true_iff in Hc. now rewrite Hc, (IH Hl).
Qed.

Lemma scan_pre_unterminated pre :
  forall fuel line,
    wf_pre pre = true -> (length pre < fuel)%nat ->
    scan fuel (mk_istream (render_lines pre marker) false false) line
    = Returns (mk_istream EmptyString true false, marker).
Proof.
  induction pre as [|l pre IH]; intros fuel line Hpre Hfuel;
    (destruct fuel as [|k]; [simpl in Hfuel; lia|]).
  - reflexivity.
  - simpl in Hpre. apply andb_prop in Hpre as [Hl Hpre].
    apply andb_prop in Hl as [Hl Hne]. apply negb_true_iff in Hne.
    cbn [render_lines fold_right scan]. rewrite getline_line by assumption.
    cbn [fail failbit]. rewrite Hne. apply IH; [assumption|]. simpl in Hfuel. lia.
Qed.

(** X4. A marker that ends the file without a newline does not open a
    section: reading it raises [eofbit], and the constructor aborts with
    the message for a missing section, whatever stands in front. *)
Theorem unterminated_marker_aborts probname datadir nt garbage pre :
  wf_pre pre = true ->
  outputlist probname datadir nt garbage (Some (render_lines pre marker))
  = MPI_Abort ("Error reading outputlist from input file" +:+ endl)
              MPI_COMM_WORLD (-1).
Proof.
  intros Hpre. unfold outputlist, open.
  pose proof (length_render_lines pre marker) as L.
  rewrite scan_pre_unterminated by (assumption || lia). reflexivity.
Qed.

Lemma unterminated_marker_aborts_witness :
  wf_pre demo_pre = true /\
  outputlist "demo" "data/" 100 no_garbage (Some (render_lines demo_pre marker))
  = MPI_Abort ("Error reading outputlist from input file" +:+ endl)
              MPI_COMM_WORLD (-1).
Proof.
  split; [reflexivity|].
  exact (unterminated_marker_aborts "demo" "data/" 100 no_garbage demo_pre eq_refl).
Defined.

(** X3. Once the marker line has been read the constructor reports no
    error: whatever follows the marker line, it returns a list. *)
Theorem no_error_after_marker_line probname datadir nt garbage pre rest :
  wf_pre pre = true ->
  exists m us,
    outputlist probname datadir nt garbage
      (Some (render_lines pre (marker +:+ endl +:+ rest)))
    = Returns (m, root_of (length us))
    /\ lists m (root_of (length us)) us.
Proof.
  intros Hpre. unfold outputlist, open.
  pose proof (length_render_lines pre (marker +:+ endl +:+ rest)) as L.
  rewrite !length_append in L. simpl String.length in L.
  rewrite scan_pre by (assumption || lia).
  cbn [mbind run_bind eof eofbit].
  destruct (read_units_returns probname datadir nt
              (S (String.length (render_lines pre (marker +:+ endl +:+ rest))))
              (mk_istream rest false false) marker EmptyString EmptyString
              (uninitialised garbage) empty_memory [] null null)
    as (m' & us' & Hr & Hm').
  { simpl. lia. } { exact holds_empty. } { congruence. }
  exists m', us'. split; [exact Hr | now apply holds_lists].
Qed.

Lemma no_error_after_marker_line_witness :
  wf_pre demo_pre = true /\
  exists m us,
    outputlist "demo" "data/" 100 no_garbage
      (Some (render_lines demo_pre (marker +:+ endl +:+ "vxbody" +:+ endl +:+ "vx 1 x")))
    = Returns (m, root_of (length us))
    /\ lists m (root_of (length us)) us.
Proof.
  split; [reflexivity|].
  exact (no_error_after_marker_line "demo" "data/" 100 no_garbage demo_pre
           ("vxbody" +:+ endl +:+ "vx 1 x") eq_refl).
Defined.

(** Fuel that outlasts the text left to read is as good as any other. *)
Lemma read_units_fuel probname datadir nt f1 :
  forall f2 s line name field w m rootunit cunit nunit,
    (String.length (buf s) < f1)%nat -> (String.length (buf s) < f2)%nat ->
    read_units probname datadir nt f1 s line name field w m rootunit cunit nunit
    = read_units probname datadir nt f2 s line name field w m rootunit cunit nunit.
Proof.
  induction f1 as [|k1 IH];
    intros f2 s line name field w m rootunit cunit nunit H1 H2; [lia|].
  destruct f2 as [|k2]; [lia|].
  cbn [read_units]. pose proof (getline_length s line) as [_ Hlt].
  destruct (getline s line) as [s1 l1]. simpl in Hlt.
  destruct (fail s1); [reflexivity|]. specialize (Hlt eq_refl).
  destruct (is_empty l1); [reflexivity|].
  pose proof (read_item_length s1 field w) as Hit.
  destruct (read_item s1 field w) as [[s2 f'] w2]. simpl in Hit.
  pose proof (getline_length s2 l1) as [Hle _].
  destruct (getline s2 l1) as [s3 l3]. simpl in Hle.
  destruct (new m _) as [m1 c1].
  destruct (rootunit =? null)%N; [apply IH; lia|].
  destruct (call_set_next_unit m1 nunit c1) as [m2| | |];
    cbn [mbind run_bind]; try reflexivity.
  destruct (call_get_next_unit m2 nunit) as [[m3 n3]| | |];
    cbn [mbind run_bind]; try reflexivity.
  apply IH; lia.
Qed.

(** X5. The lines in front of the marker line have no influence on the
    list: two files that agree from the marker line on give the same
    result. *)
Theorem text_before_marker_is_ignored probname datadir nt garbage pre1 pre2 rest :
  wf_pre pre1 = true -> wf_pre pre2 = true ->
  outputlist probname datadir nt garbage
    (Some (render_lines pre1 (marker +:+ endl +:+ rest)))
  = outputlist probname datadir nt garbage
      (Some (render_lines pre2 (marker +:+ endl +:+ rest))).
Proof.
  intros H1 H2. unfold outputlist, open.
  pose proof (length_render_lines pre1 (marker +:+ endl +:+ rest)) as L1.
  pose proof (length_render_lines pre2 (marker +:+ endl +:+ rest)) as L2.
  rewrite !length_append in L1, L2. simpl String.length in L1, L2.
  rewrite !scan_pre by (assumption || lia).
  cbn [mbind run_bind eof eofbit].
  apply read_units_fuel; simpl; lia.
Qed.

Lemma text_before_marker_is_ignored_witness :
  wf_pre demo_pre = true /\ wf_pre [] = true /\
  outputlist "demo" "data/" 100 no_garbage
    (Some (render_lines demo_pre (marker +:+ endl +:+ "vxbody" +:+ endl +:+ "vx 1 x")))
  = outputlist "demo" "data/" 100 no_garbage
      (Some (render_lines [] (marker +:+ endl +:+ "vxbody" +:+ endl +:+ "vx 1 x"))).
Proof.
  split; [reflexivity|]. split; [reflexivity|].
  exact (text_before_marker_is_ignored "demo" "data/" 100 no_garbage demo_pre []
           ("vxbody" +:+ endl +:+ "vx 1 x") eq_refl eq_refl).
Defined.

(** ** Declarations in any layout *)

Section Loose.

Variables (probname datadir : string) (nt : Z).

Local Abbreviation unit_of := (item_unit probname datadir nt).

Lemma outputlist_loose garbage pre its post :
  wf_pre pre = true -> forallb wf_item_loose its = true -> wf_post post = true ->
  exists m,
    outputlist probname datadir nt garbage (Some (render_file pre its post))
    = Returns (m, root_of (length its))
    /\ holds m (map unit_of its).
Proof.
  intros Hpre Hits Hpost. unfold outputlist, render_file, open.
  pose proof (length_render_lines pre (marker +:+ endl +:+ render_items its post)) as L1.
  pose proof (length_render_items its post) as L2.
  rewrite !length_append in L1. simpl String.length in L1.
  rewrite scan_pre by (assumption || lia).
  cbn [mbind run_bind eof eofbit].
  set (fuel := S (String.length (render_lines pre
                    (marker +:+ endl +:+ render_items its post)))).
  replace fuel with (length its + (fuel - length its))%nat by (unfold fuel; lia).
  destruct (read_units_prefix probname datadir nt its (fuel - length its) post
              marker EmptyString EmptyString (uninitialised garbage)
              empty_memory [] null null Hits (win_ok_uninitialised garbage)
              holds_empty ltac:(congruence))
    as (m1 & line1 & c1 & n1 & Hr & Hm1 & Hn1 & Hw1).
  cbn [length root_of] in Hr. rewrite Hr.
  destruct (locals_after its (EmptyString, EmptyString, uninitialised garbage))
    as [[name1 field1] w1]. simpl in Hw1. simpl app in Hm1, Hn1.
  destruct (read_units_items probname datadir nt [] (fuel - length its) post
              line1 name1 field1 w1 m1 (map unit_of its) c1 n1 eq_refl Hpost Hw1)
    as (m2 & Hr2 & Hm2).
  { unfold fuel. simpl. lia. }
  { exact Hm1. }
  { intros Hne. rewrite (Hn1 Hne), length_map. reflexivity. }
  rewrite length_map, Nat.add_0_r in Hr2. simpl in Hr2, Hm2.
  rewrite app_nil_r in Hm2. exists m2. split; [exact Hr2 | exact Hm2].
Qed.

Lemma wf_normalise it :
  wf_item_loose it = true -> wf_item_loose (normalise it) = true.
Proof.
  unfold wf_item_loose, normalise. simpl. intros H.
  apply andb_prop in H as [H _]. split_andb.
  repeat (apply andb_true_intro; split); try assumption; try reflexivity.
  - now rewrite length_map.
  - match goal with H : forallb _ (i_ints it) = true |- _ => revert H end.
    clear. induction (i_ints it) as [|t l IH]; simpl; [reflexivity|].
    intros H. apply andb_prop in H as [Ht Hl]. apply andb_prop in Ht as [_ Ht].
    rewrite Ht, (IH Hl). reflexivity.
Qed.

Lemma unit_of_normalise it : unit_of (normalise it) = unit_of it.
Proof.
  unfold item_unit, item_window, normalise. simpl.
  now rewrite List.map_map.
Qed.

(** X9. Of a declaration only the name line and the thirteen tokens
    count. How much white space, line breaks included, stands between
    the tokens, and what follows the twelfth integer on its line after
    white space, has no influence: the constructor gives the same
    result as for the file with one space in front of each integer. *)
Theorem layout_of_a_declaration_is_ignored garbage pre its post :
  wf_pre pre = true -> forallb wf_item_loose its = true -> wf_post post = true ->
  outputlist probname datadir nt garbage (Some (render_file pre its post))
  = outputlist probname datadir nt garbage
      (Some (render_file pre (map normalise its) post))
  /\ exists m,
       outputlist probname datadir nt garbage (Some (render_file pre its post))
       = Returns (m, root_of (length its))
       /\ lists m (root_of (length its)) (map unit_of its).
Proof.
  intros Hpre Hits Hpost.
  destruct (outputlist_loose garbage pre its post Hpre Hits Hpost)
    as (m1 & Hr1 & Hm1).
  destruct (outputlist_loose garbage pre (map normalise its) post Hpre)
    as (m2 & Hr2 & Hm2); [|exact Hpost|].
  { clear -Hits. induction its as [|it its IH]; [reflexivity|]. simpl in *.
    apply andb_prop in Hits as [Hit Hits]. now rewrite (wf_normalise it Hit), IH. }
  rewrite List.map_map in Hm2.
  rewrite (List.map_ext _ _ unit_of_normalise) in Hm2.
  rewrite length_map in Hr2.
  rewrite (holds_unique m2 m1 _ Hm2 Hm1) in Hr2.
  split; [now rewrite Hr1, Hr2|].
  exists m1. split; [exact Hr1|].
  apply holds_lists in Hm1. now rewrite length_map in Hm1.
Qed.

End Loose.

Lemma layout_of_a_declaration_is_ignored_witness :
  wf_pre demo_pre = true /\ forallb wf_item_loose [demo_item3] = true /\
  wf_post endl = true /\
  outputlist "demo" "data/" 100 no_garbage
    (Some (render_file demo_pre [demo_item3] endl))
  = outputlist "demo" "data/" 100 no_garbage
      (Some (render_file demo_pre [normalise demo_item3] endl)).
Proof.
  split; [reflexivity|]. split; [reflexivity|]. split; [reflexivity|].
  exact (proj1 (layout_of_a_declaration_is_ignored "demo" "data/" 100 no_garbage
                  demo_pre [demo_item3] endl eq_refl eq_refl eq_refl)).
Defined.

(** ** Declarations that break off *)

Lemma good_failed s : failbit s = true -> good s = false.
Proof. unfold good. intros ->. now rewrite orb_true_r. Qed.

Lemma good_setfail s : good (setfail s) = false.
Proof. now apply good_failed. Qed.

Lemma setfail_setfail s : setfail (setfail s) = setfail s.
Proof. reflexivity. Qed.

Lemma extract_string_not_good s old :
  good s = false -> extract_string s old = (setfail s, old).
Proof. intros H. unfold extract_string, sentry. now rewrite H. Qed.

Lemma extract_int_not_good s old :
  good s = false -> extract_int s old = (setfail s, old).
Proof. intros H. unfold extract_int, sentry. now rewrite H. Qed.

(** On a stream that is not good the twelve integer extractions change
    nothing but the fail bit. *)
Lemma read_ints_not_good s w :
  good s = false -> win_ok w ->
  (let '(s, a) := extract_int s (tm w) in
   let w := set_tm w a in
   let '(s, a) := extract_int s (tp w) in
   let w := set_tp w a in
   let '(s, a) := extract_int s (ts w) in
   let w := set_ts w a in
   fold_left read_xyz [0; 1; 2]%nat (s, w)) = (setfail s, w).
Proof.
  intros Hs (Hm & Hp & Hx).
  destruct w as [a b c wm wp wx]. simpl in *.
  destruct wm as [|? [|? [|? [|]]]]; try discriminate.
  destruct wp as [|? [|? [|? [|]]]]; try discriminate.
  destruct wx as [|? [|? [|? [|]]]]; try discriminate.
  rewrite (extract_int_not_good s _ Hs). cbv beta iota zeta. simpl tp.
  rewrite (extract_int_not_good _ _ (good_setfail s)). cbv beta iota zeta.
  simpl ts. rewrite (extract_int_not_good _ _ (good_setfail _)).
  cbv beta iota zeta. cbn [fold_left]. unfold read_xyz. simpl.
  repeat (rewrite (extract_int_not_good _ _ (good_setfail _)); simpl).
  reflexivity.
Qed.

Lemma set_tm_after_tail s w :
  good s = false -> win_ok w ->
  (let '(s, a) := extract_int s (tp w) in
   let w := set_tp w a in
   let '(s, a) := extract_int s (ts w) in
   let w := set_ts w a in
   fold_left read_xyz [0; 1; 2]%nat (s, w)) = (setfail s, w).
Proof.
  intros Hs (Hm & Hp & Hx).
  destruct w as [a b c wm wp wx]. simpl in *.
  destruct wm as [|? [|? [|? [|]]]]; try discriminate.
  destruct wp as [|? [|? [|? [|]]]]; try discriminate.
  destruct wx as [|? [|? [|? [|]]]]; try discriminate.
  rewrite (extract_int_not_good s _ Hs). cbv beta iota zeta. simpl ts.
  rewrite (extract_int_not_good _ _ (good_setfail _)).
  cbv beta iota zeta. cbn [fold_left]. unfold read_xyz. simpl.
  repeat (rewrite (extract_int_not_good _ _ (good_setfail _)); simpl).
  reflexivity.
Qed.

(** At the end of the file nothing is read into the locals. *)
Lemma read_item_not_good s field w :
  good s = false -> win_ok w ->
  read_item s field w = (setfail s, field, w).
Proof.
  intros Hs Hw. unfold read_item.
  rewrite (extract_string_not_good s field Hs).
  pose proof (read_ints_not_good (setfail s) w (good_setfail s) Hw) as H.
  cbv beta iota zeta in H |- *.
  destruct (extract_int (setfail s) (tm w)) as [s1 a1].
  destruct (extract_int s1 _) as [s2 a2].
  destruct (extract_int s2 _) as [s3 a3].
  now rewrite H.
Qed.

(** In front of white space and the end of the file neither. *)
Lemma read_item_blank ws field w :
  string_forall isspace ws = true -> win_ok w ->
  read_item (mk_istream ws false false) field w
  = (mk_istream EmptyString true true, field, w).
Proof.
  intros Hws Hw. unfold read_item.
  assert (Hsk : skipws ws = EmptyString).
  { clear -Hws. induction ws as [|c ws IH]; simpl in *; [reflexivity|].
    apply andb_prop in Hws as [Hc Hws]. rewrite Hc. now apply IH. }
  assert (He : extract_string (mk_istream ws false false) field
               = (mk_istream EmptyString true true, field)).
  { unfold extract_string, sentry, good. simpl. now rewrite Hsk. }
  rewrite He.
  pose proof (read_ints_not_good (mk_istream EmptyString true true) w
                eq_refl Hw) as H.
  cbv beta iota zeta in H |- *.
  destruct (extract_int _ (tm w)) as [s1 a1].
  destruct (extract_int s1 _) as [s2 a2].
  destruct (extract_int s2 _) as [s3 a3].
  now rewrite H.
Qed.

Lemma append_nil (a : string) : a +:+ EmptyString = a.
Proof.
  induction a as [|c a IH]; [reflexivity|].
  rewrite append_cons. f_equal. exact IH.
Qed.

Section Broken.

Variables (probname datadir : string) (nt : Z).

Local Abbreviation unit_of := (item_unit probname datadir nt).

Lemma read_units_step k s line name field w m rootunit cunit nunit :
  read_units probname datadir nt (S k) s line name field w m rootunit cunit nunit
  = (let '(s, line) := getline s line in
     if fail s then Returns (m, rootunit)
     else if is_empty line then Returns (m, rootunit)
     else
       let name := line in
       let '(s, field, w) := read_item s field w in
       let '(s, line) := getline s line in
       let '(m, cunit) :=
         new m (new_outputunit probname datadir nt (tm w) (tp w) (ts w)
                               (xm w) (xp w) (xs w) field name) in
       if (rootunit =? null)%N then
         read_units probname datadir nt k s line name field w m cunit cunit cunit
       else
         m ← call_set_next_unit m nunit cunit;
         '(m, nunit) ← call_get_next_unit m nunit;
         read_units probname datadir nt k s line name field w m rootunit cunit nunit).
Proof. reflexivity. Qed.

(** When one of the thirteen extractions fails, the unit is appended
    all the same, made of the locals as they stand, and the loop ends
    at its next test. *)
Lemma read_units_failed k s line name field w m us cunit nunit s1 l1 s2 f2 w2 :
  getline s line = (s1, l1) -> fail s1 = false -> is_empty l1 = false ->
  read_item s1 field w = (s2, f2, w2) -> fail s2 = true ->
  holds m us -> (us <> [] -> nunit = N.of_nat (length us)) ->
  exists m',
    read_units probname datadir nt (S (S k)) s line name field w m
               (root_of (length us)) cunit nunit
    = Returns (m', 1%N)
    /\ holds m' (us ++ [unit_of_locals probname datadir nt l1 (l1, f2, w2)]).
Proof.
  intros Hg Hf1 Hl1 Hr Hf2 Hm Hn.
  set (u := unit_of_locals probname datadir nt l1 (l1, f2, w2)).
  assert (Hend : forall m1 r c n l nm,
            read_units probname datadir nt (S k) (setfail s2) l nm f2 w2 m1 r c n
            = Returns (m1, r)).
  { intros. rewrite read_units_step. unfold getline. now rewrite good_setfail. }
  rewrite read_units_step, Hg, Hf1, Hl1, Hr.
  unfold getline at 1. rewrite (good_failed s2 Hf2).
  change (new_outputunit probname datadir nt (tm w2) (tp w2) (ts w2)
                         (xm w2) (xp w2) (xs w2) f2 l1) with u.
  destruct us as [|u0 us0].
  - destruct (append_first m u Hm eq_refl) as [Hm1 Hc1].
    destruct (new m u) as [m1 c1]. simpl in Hm1, Hc1. subst c1.
    cbn [length root_of]. cbn [N.eqb null]. rewrite Hend.
    exists m1. split; [reflexivity | exact Hm1].
  - pose proof (append_next m (u0 :: us0) u Hm ltac:(discriminate) eq_refl) as Ha.
    rewrite (Hn ltac:(discriminate)). cbv zeta in Ha.
    destruct (new m u) as [m1 c1]. destruct Ha as (m3 & Hcall & Hc1 & Hm3).
    cbn [length root_of]. change (1 =? null)%N with false. cbv match.
    simpl length in *.
    destruct (call_set_next_unit m1 (N.of_nat (S (length us0))) c1)
      as [m2| | |] eqn:E2; try discriminate.
    simpl in Hcall. cbn [mbind run_bind]. rewrite Hcall. cbn [mbind run_bind]. cbv beta match.
    rewrite Hend. exists m3. split; [reflexivity | exact Hm3].
Qed.

(** The constructor on well-formed declarations followed by one that
    fails: [tail_stream] says where reading the failing one ends. *)
Lemma outputlist_broken garbage pre its post s1 l1 s2 f2 w2 :
  wf_pre pre = true -> forallb wf_item_loose its = true ->
  (1 <= String.length post)%nat ->
  (forall line,
     getline (mk_istream post false false) line = (s1, l1)) ->
  fail s1 = false -> is_empty l1 = false ->
  (let '(_, field, w) :=
     locals_after its (EmptyString, EmptyString, uninitialised garbage) in
   read_item s1 field w = (s2, f2, w2)) ->
  fail s2 = true ->
  exists m,
    outputlist probname datadir nt garbage (Some (render_file pre its post))
    = Returns (m, 1%N)
    /\ lists m 1%N (map unit_of its
                    ++ [unit_of_locals probname datadir nt l1 (l1, f2, w2)]).
Proof.
  intros Hpre Hits Hlen Hg Hf1 Hl1 Hr Hf2. unfold outputlist, render_file, open.
  pose proof (length_render_lines pre (marker +:+ endl +:+ render_items its post)) as L1.
  pose proof (length_render_items its post) as L2.
  rewrite !length_append in L1. simpl String.length in L1.
  rewrite scan_pre by (assumption || lia).
  cbn [mbind run_bind eof eofbit].
  set (fuel := S (String.length (render_lines pre
                    (marker +:+ endl +:+ render_items its post)))).
  replace fuel with (length its + S (S (fuel - length its - 2)))%nat
    by (unfold fuel; lia).
  destruct (read_units_prefix probname datadir nt its
              (S (S (fuel - length its - 2))) post
              marker EmptyString EmptyString (uninitialised garbage)
              empty_memory [] null null Hits (win_ok_uninitialised garbage)
              holds_empty ltac:(congruence))
    as (m1 & line1 & c1 & n1 & Hp & Hm1 & Hn1 & Hw1).
  cbn [length root_of] in Hp. rewrite Hp.
  destruct (locals_after its (EmptyString, EmptyString, uninitialised garbage))
    as [[name1 field1] w1]. simpl app in Hm1, Hn1.
  destruct (read_units_failed (fuel - length its - 2)
              (mk_istream post false false) line1 name1 field1 w1 m1
              (map unit_of its) c1 n1 s1 l1 s2 f2 w2 (Hg line1) Hf1 Hl1 Hr Hf2 Hm1)
    as (m2 & Hr2 & Hm2).
  { intros Hne. rewrite (Hn1 Hne), length_map. reflexivity. }
  rewrite length_map in Hr2. cbv beta match. cbn [Nat.add]. rewrite Hr2.
  exists m2. split; [reflexivity|].
  apply holds_lists in Hm2. rewrite length_app, Nat.add_1_r in Hm2. exact Hm2.
Qed.

(** X6. A name line with nothing behind it but white space makes a
    unit all the same: the constructor returns the units declared in
    front of it and one more, with that name and with the field and
    window of the declaration before it, or, when it is the first, the
    empty field and what the uninitialised locals held. *)
Theorem name_line_alone_makes_a_unit garbage pre its name tl :
  wf_pre pre = true -> forallb wf_item_loose its = true ->
  is_empty name = false -> string_forall not_nl name = true ->
  only_space_after tl = true ->
  exists m,
    outputlist probname datadir nt garbage
      (Some (render_file pre its (name +:+ tl)))
    = Returns (m, 1%N)
    /\ lists m 1%N
         (map unit_of its
          ++ [unit_of_locals probname datadir nt name
                (locals_after its (EmptyString, EmptyString,
                                   uninitialised garbage))]).
Proof.
  intros Hpre Hits Hne Hnl Htl.
  pose proof (read_units_prefix probname datadir nt its 0 EmptyString
                EmptyString EmptyString EmptyString (uninitialised garbage)
                empty_memory [] null null Hits (win_ok_uninitialised garbage)
                holds_empty ltac:(congruence)) as (_ & _ & _ & _ & _ & _ & _ & Hw).
  destruct (locals_after its (EmptyString, EmptyString, uninitialised garbage))
    as [[name1 field1] w1] eqn:El. simpl in Hw.
  assert (Hlen : (1 <= String.length (name +:+ tl))%nat).
  { rewrite length_append. destruct name; [discriminate | simpl; lia]. }
  unfold unit_of_locals. simpl fst. simpl snd.
  destruct tl as [|c r].
  - rewrite append_nil in *.
    destruct (outputlist_broken garbage pre its name
                (mk_istream EmptyString true false) name
                (mk_istream EmptyString true true) field1 w1 Hpre Hits Hlen)
      as (m & Hr & Hm).
    + intros line. unfold getline, good. simpl.
      rewrite (read_line_plain name Hnl). now rewrite Hne.
    + reflexivity.
    + exact Hne.
    + rewrite El. now apply read_item_not_good.
    + reflexivity.
    + exists m. split; [exact Hr | exact Hm].
  - simpl in Htl. apply andb_prop in Htl as [Hc Hr]. apply Ascii.eqb_eq in Hc.
    subst c.
    destruct (outputlist_broken garbage pre its (name +:+ String nl r)
                (mk_istream r false false) name
                (mk_istream EmptyString true true) field1 w1 Hpre Hits Hlen)
      as (m & Hres & Hm).
    + intros line. exact (getline_line name r line Hnl).
    + reflexivity.
    + exact Hne.
    + rewrite El. now apply read_item_blank.
    + reflexivity.
    + exists m. split; [exact Hres | exact Hm].
Qed.

End Broken.

Lemma name_line_alone_makes_a_unit_witness :
  wf_pre demo_pre = true /\ forallb wf_item_loose [demo_item] = true /\
  is_empty "fault slip" = false /\ string_forall not_nl "fault slip" = true /\
  only_space_after endl = true /\
  exists m,
    outputlist "demo" "data/" 100 no_garbage
      (Some (render_file demo_pre [demo_item] ("fault slip" +:+ endl)))
    = Returns (m, 1%N)
    /\ lists m 1%N [demo_unit "vxbody" 0 false; demo_unit "fault slip" 0 false].
Proof.
  split; [reflexivity|]. split; [reflexivity|]. split; [reflexivity|].
  split; [reflexivity|]. split; [reflexivity|].
  exact (name_line_alone_makes_a_unit "demo" "data/" 100 no_garbage demo_pre
           [demo_item] "fault slip" endl eq_refl eq_refl eq_refl eq_refl eq_refl).
Defined.

Lemma extract_int_plain gap c junk old :
  string_forall isspace gap = true -> plain_char c = true ->
  extract_int (mk_istream (gap +:+ String c junk) false false) old
  = (mk_istream (String c junk) false true, 0).
Proof.
  unfold plain_char. intros Hgap Hc.
  apply andb_prop in Hc as [Hc Hplus]. apply andb_prop in Hc as [Hc Hminus].
  apply andb_prop in Hc as [Hsp Hdg].
  apply negb_true_iff in Hsp, Hdg, Hminus, Hplus.
  unfold extract_int. rewrite (sentry_token gap c junk Hgap Hsp).
  cbn [buf read_sign]. rewrite Hminus, Hplus. cbn [read_digits].
  rewrite Hdg. reflexivity.
Qed.

(** X7. A declaration whose first integer is no integer ends the list:
    the constructor returns the units declared in front of it and one
    more, with the name and field that were read, window start 0 and
    the other window values of the declaration before it; nothing of
    what follows is read, and no error is reported. *)
Theorem malformed_integer_ends_the_list
    probname datadir nt garbage pre its name fws fw gap c junk :
  wf_pre pre = true -> forallb wf_item_loose its = true ->
  wf_broken name fws fw gap c = true ->
  exists m,
    outputlist probname datadir nt garbage
      (Some (render_file pre its (broken_text name fws fw gap c junk)))
    = Returns (m, 1%N)
    /\ lists m 1%N
         (map (item_unit probname datadir nt) its
          ++ [unit_of_locals probname datadir nt name
                (name, fw,
                 set_tm (snd (locals_after its (EmptyString, EmptyString,
                                                uninitialised garbage))) 0)]).
Proof.
  intros Hpre Hits Hb. unfold wf_broken in Hb.
  apply andb_prop in Hb as [Hb Hc]. apply andb_prop in Hb as [Hb Hgap].
  apply andb_prop in Hb as [Hb Hgne]. apply andb_prop in Hb as [Hb Hfw].
  apply andb_prop in Hb as [Hb Hfne]. apply andb_prop in Hb as [Hb Hfws].
  apply andb_prop in Hb as [Hne Hnl].
  apply negb_true_iff in Hne, Hgne, Hfne.
  pose proof (read_units_prefix probname datadir nt its 0 EmptyString
                EmptyString EmptyString EmptyString (uninitialised garbage)
                empty_memory [] null null Hits (win_ok_uninitialised garbage)
                holds_empty ltac:(congruence)) as (_ & _ & _ & _ & _ & _ & _ & Hw).
  destruct (locals_after its (EmptyString, EmptyString, uninitialised garbage))
    as [[name1 field1] w1] eqn:El. simpl in Hw. simpl snd.
  apply (outputlist_broken probname datadir nt garbage pre its
           (broken_text name fws fw gap c junk)
           (mk_istream (fws +:+ fw +:+ gap +:+ String c junk) false false) name
           (mk_istream (String c junk) false true) fw (set_tm w1 0) Hpre Hits).
  - unfold broken_text. rewrite length_append.
    destruct name; [discriminate | simpl; lia].
  - intros line. exact (getline_line name _ line Hnl).
  - reflexivity.
  - exact Hne.
  - rewrite El. unfold read_item.
    rewrite extract_string_word
      by (assumption || (apply starts_space_gap; assumption)).
    rewrite (extract_int_plain gap c junk _ Hgap Hc).
    pose proof (set_tm_after_tail (mk_istream (String c junk) false true)
                  (set_tm w1 0) eq_refl) as H.
    cbv beta iota zeta in H |- *.
    destruct (extract_int _ (tp (set_tm w1 0))) as [s1 a1].
    destruct (extract_int s1 _) as [s2 a2].
    rewrite H; [reflexivity|]. exact Hw.
  - reflexivity.
Qed.

Lemma malformed_integer_ends_the_list_witness :
  wf_pre demo_pre = true /\ forallb wf_item_loose [demo_item] = true /\
  wf_broken "fault slip" "" "U" " " "x" = true /\
  exists m,
    outputlist "demo" "data/" 100 no_garbage
      (Some (render_file demo_pre [demo_item]
               (broken_text "fault slip" "" "U" " " "x"
                  (" 95 5" +:+ endl +:+ render_items [demo_item2] endl))))
    = Returns (m, 1%N)
    /\ lists m 1%N
         [demo_unit "vxbody" 0 false;
          mk_outputunit "demo" "data/" 100
            (mk_window 0 10 2 [0; 3; -1] [5; 7; 4] [1; 2; 1])
            "U" "fault slip" null false].
Proof.
  split; [reflexivity|]. split; [reflexivity|]. split; [reflexivity|].
  exact (malformed_integer_ends_the_list "demo" "data/" 100 no_garbage demo_pre
           [demo_item] "fault slip" "" "U" " " "x"
           (" 95 5" +:+ endl +:+ render_items [demo_item2] endl)
           eq_refl eq_refl eq_refl).
Defined.

(** ** Carriage returns *)

Lemma lines_line l r :
  string_forall not_nl l = true -> lines (l +:+ endl +:+ r) = l :: lines r.
Proof.
  intros H. pose proof (read_line_lines (l +:+ endl +:+ r)) as Hl.
  rewrite (read_line_line l r H) in Hl. now destruct Hl.
Qed.

Lemma append_snoc l c x : l +:+ String c x = (l +:+ String c EmptyString) +:+ x.
Proof.
  induction l as [|d l IH]; [reflexivity|].
  rewrite !append_cons. f_equal. exact IH.
Qed.

Lemma string_forall_snoc f l c :
  string_forall f (l +:+ String c EmptyString) = string_forall f l && f c.
Proof.
  induction l as [|d l IH]; simpl; [now rewrite andb_true_r|].
  now rewrite IH, andb_assoc.
Qed.

Lemma cr_line_not_marker l : l +:+ String cr EmptyString <> marker.
Proof.
  intros E.
  apply (f_equal (string_forall (fun c => negb (Ascii.eqb c cr)))) in E.
  rewrite string_forall_snoc in E. simpl in E.
  rewrite andb_false_r in E. discriminate.
Qed.

Lemma lines_crlf ls :
  forallb (string_forall not_nl) ls = true ->
  marker ∉ lines (render_crlf ls).
Proof.
  induction ls as [|l ls IH]; intros H.
  - simpl. intros Hin. apply list_elem_of_singleton in Hin. discriminate.
  - simpl in H. apply andb_prop in H as [Hl Hls].
    cbn [render_crlf fold_right]. fold (render_crlf ls).
    rewrite append_cons, append_snoc.
    change (String nl (EmptyString +:+ render_crlf ls))
      with (endl +:+ render_crlf ls).
    rewrite lines_line.
    + apply not_elem_of_cons. split; [|now apply IH].
      intros E. symmetry in E. now apply cr_line_not_marker in E.
    + rewrite string_forall_snoc, Hl. reflexivity.
Qed.

(** X8. The marker is compared with the whole line. In a file whose
    lines end in carriage return and newline every line read ends in
    the carriage return, so none is the marker: the constructor aborts
    with the message for a missing section, also when the file has the
    marker line and declarations. *)
Theorem crlf_file_has_no_section probname datadir nt garbage ls :
  forallb (string_forall not_nl) ls = true ->
  outputlist probname datadir nt garbage (Some (render_crlf ls))
  = MPI_Abort ("Error reading outputlist from input file" +:+ endl)
              MPI_COMM_WORLD (-1).
Proof.
  intros H. unfold outputlist, open.
  destruct (scan_no_marker (S (String.length (render_crlf ls))) (render_crlf ls)
              EmptyString (lines_crlf ls H)) as (s' & line' & Hs & He); [lia|].
  rewrite Hs. cbn [mbind run_bind]. unfold eof. now rewrite He.
Qed.

Lemma crlf_file_has_no_section_witness :
  forallb (string_forall not_nl)
    [marker; "vxbody"; "vx 0 10 2 0 5 1 3 7 2 -1 +4 1"; ""]%string = true /\
  outputlist "demo" "data/" 100 no_garbage
    (Some (render_crlf [marker; "vxbody"; "vx 0 10 2 0 5 1 3 7 2 -1 +4 1"; ""]%string))
  = MPI_Abort ("Error reading outputlist from input file" +:+ endl)
              MPI_COMM_WORLD (-1).
Proof.
  split; [reflexivity|].
  exact (crlf_file_has_no_section "demo" "data/" 100 no_garbage
           [marker; "vxbody"; "vx 0 10 2 0 5 1 3 7 2 -1 +4 1"; ""]%string eq_refl).
Defined.
